(** * DIPU caching-allocator front end

    A shallow embedding of
    [dipu/torch_dipu/csrc_dipu/runtime/core/allocator/DIPUCachingAllocator_fdy.cpp]:
    the algorithm registry ([setAllocator]), the per-device allocator cache
    ([createAllocator], [getAllocator]), the global sweeps ([emptyCachedMem],
    [releaseAllDeviceMem]), [recordStream] and the stream-ordering proxy
    ([DIPUDeviceCachingProxy::allocate]).

    The translation unit works on process-wide mutable state, so every
    function is a state transformer over one record, [World], holding the
    globals of the file, the function-local statics of [getAllocator], the
    allocator objects reachable through [c10::Allocator*] pointers and the
    part of the device runtime the file reads.  A C++ exception is a
    [Throw] carrying the state at the throw; behaviour the C++ standard leaves
    undefined (a null or dangling dereference, an index outside a vector) is
    the separate outcome [Undefined].

    Left out: [initCachedAllocator], which only writes to the allocator table
    of the host framework; the [DIPU_DEBUG_ALLOCATOR] debug output; and the
    mutexes, every function being run to its end before the next starts. *)

From stdpp Require Import gmap strings list.

Local Open Scope Z_scope.

(** ** Data of the host framework *)

(** [c10::DeviceType], the enumerators of c10/core/DeviceType.h. *)
Inductive DeviceType :=
| CPU | CUDA | MKLDNN | OPENGL | OPENCL | IDEEP | HIP | FPGA | ORT | XLA
| Vulkan | Metal | XPU | MPS | Meta | HPU | VE | Lazy | IPU | MTIA
| PrivateUse1.

Definition DeviceType_to_nat (d : DeviceType) : nat :=
  match d with
  | CPU => 0 | CUDA => 1 | MKLDNN => 2 | OPENGL => 3 | OPENCL => 4
  | IDEEP => 5 | HIP => 6 | FPGA => 7 | ORT => 8 | XLA => 9
  | Vulkan => 10 | Metal => 11 | XPU => 12 | MPS => 13 | Meta => 14
  | HPU => 15 | VE => 16 | Lazy => 17 | IPU => 18 | MTIA => 19
  | PrivateUse1 => 20
  end%nat.

Definition DeviceType_of_nat (n : nat) : option DeviceType :=
  match n with
  | 0 => Some CPU | 1 => Some CUDA | 2 => Some MKLDNN | 3 => Some OPENGL
  | 4 => Some OPENCL | 5 => Some IDEEP | 6 => Some HIP | 7 => Some FPGA
  | 8 => Some ORT | 9 => Some XLA | 10 => Some Vulkan | 11 => Some Metal
  | 12 => Some XPU | 13 => Some MPS | 14 => Some Meta | 15 => Some HPU
  | 16 => Some VE | 17 => Some Lazy | 18 => Some IPU | 19 => Some MTIA
  | 20 => Some PrivateUse1 | _ => None
  end%nat.

#[global] Instance DeviceType_eq_dec : EqDecision DeviceType.
Proof. solve_decision. Defined.

#[global] Instance DeviceType_countable : Countable DeviceType.
Proof.
  apply (inj_countable DeviceType_to_nat DeviceType_of_nat).
  intros []; reflexivity.
Defined.

(** A [c10::Allocator*]: an address, [nullptr] being 0. *)
Abbreviation Ptr := Z (only parsing).
Definition nullptr : Ptr := 0.

(** A [DIPUStream]: an opaque handle that can be compared. *)
Abbreviation DIPUStream := Z (only parsing).

(** [c10::Device]: a type and an index, -1 standing for "no index". *)
Record Device := mkDevice { dev_type : DeviceType; dev_index : Z }.

Definition is_cpu (d : Device) : bool := bool_decide (dev_type d = CPU).
Definition has_index (d : Device) : bool := negb (dev_index d =? -1).

(** [c10::Device(device_type)]: the index defaults to -1. *)
Definition Device_of_type (t : DeviceType) : Device := mkDevice t (-1).

(** [c10::DataPtr]: the data address and the deleter context. *)
Record DataPtr := mkDataPtr { dp_data : Ptr; dp_context : Ptr }.

Definition get_context (p : DataPtr) : Ptr := dp_context p.

(** [at::Tensor], as far as this file reads it:
    [tensor.storage().data_ptr()]. *)
Record Tensor := mkTensor { storage_data_ptr : DataPtr }.

(** ** Exceptions *)

(** The two [TORCH_CHECK(false, ...)] of the file, with the values streamed
    into their messages, the [std::length_error] of a vector that cannot be
    created, and whatever a virtual method or a registered constructor of an
    allocator raises. *)
Inductive Error :=
| HigherPriorityRegistered (device_type : DeviceType) (name : string)
                           (priority : Z)
| NoAllocatorFound (device_type : DeviceType) (algorithm : string)
| LengthError
| AllocatorFailure (code : Z).

Definition higher_priority_message : string :=
  "A higher priority allocator is already registered for the same device:".
Definition no_allocator_message : string :=
  "No allocator found for the device using the given algorithm:".

(** The fixed text a [TORCH_CHECK] of this file puts in front of its values. *)
Definition what (e : Error) : string :=
  match e with
  | HigherPriorityRegistered _ _ _ => higher_priority_message
  | NoAllocatorFound _ _ => no_allocator_message
  | LengthError => "cannot create std::vector larger than max_size()"
  | AllocatorFailure _ => "allocator failure"
  end.

(** ** Observable calls

    A log of the calls the file makes to its collaborators, in program order.
    It is ghost state: no function reads it. *)
Inductive Call :=
| Cout (text : string)
| EventRecord (stream : DIPUStream)
| EventWait (stream : DIPUStream)
| RegistryCount (device_type : DeviceType) (algorithm : string)
| CallGetter (device_type : DeviceType) (algorithm : string)
             (device_index : Z)
| Created (device_type : DeviceType) (allocator : Ptr)
| Allocate (allocator : Ptr) (size : Z)
| EmptyCache (allocator : Ptr)
| ReleaseAllMemory (allocator : Ptr).

#[global] Instance Call_eq_dec : EqDecision Call.
Proof. solve_decision. Defined.

(** The calls that order one stream after another. *)
Definition is_sync (c : Call) : bool :=
  match c with
  | EventRecord _ | EventWait _ => true
  | _ => false
  end.

(** ** Outcomes and the state-and-exception monad *)

(** What running a piece of C++ on a state of type [S] gives: a value and the
    new state, an exception and the state it leaves behind, or undefined
    behaviour. *)
Inductive Res (S A : Type) :=
| Ok (a : A) (s : S)
| Throw (e : Error) (s : S)
| Undefined.
Arguments Ok {S A} a s.
Arguments Throw {S A} e s.
Arguments Undefined {S A}.

Definition ret {S A} (a : A) : S -> Res S A := fun s => Ok a s.

Definition bind {S A B} (m : S -> Res S A) (f : A -> S -> Res S B)
  : S -> Res S B :=
  fun s =>
    match m s with
    | Ok a s' => f a s'
    | Throw e s' => Throw e s'
    | Undefined => Undefined
    end.

Notation "'let*' x ':=' m 'in' k" := (bind m (fun x => k))
  (at level 10, x name, m at level 100, k at level 200).
Notation "m ';;' k" := (bind m (fun _ => k))
  (at level 100, k at level 200, right associativity).

Definition gets {S A} (f : S -> A) : S -> Res S A := fun s => Ok (f s) s.
Definition modify {S} (f : S -> S) : S -> Res S unit := fun s => Ok tt (f s).
Definition throw {S A} (e : Error) : S -> Res S A := fun s => Throw e s.
Definition undefined {S A} : S -> Res S A := fun _ => Undefined.

(** The state an outcome leaves behind, when there is one. *)
Definition final_state {S A} (r : Res S A) : option S :=
  match r with
  | Ok _ s => Some s
  | Throw _ s => Some s
  | Undefined => None
  end.

(** ** [std::set<c10::Allocator*>]

    An ordered set: a strictly increasing list of addresses, iterated from
    the smallest address up. *)
Fixpoint set_insert (p : Ptr) (s : list Ptr) : list Ptr :=
  match s with
  | [] => [p]
  | q :: s' =>
      if p <? q then p :: q :: s'
      else if p =? q then q :: s'
      else q :: set_insert p s'
  end.

Section Model.

(** The private data of an allocator object; each caching algorithm has its
    own, and none of them is part of this file. *)
Context {Mem : Type}.

(** ** Allocator objects *)

(** The virtual methods of [CacheAllocator] this file calls. *)
Record CacheAllocator := mkCacheAllocator {
  empty_cache : Mem -> Res Mem unit;
  release_all_memory : Mem -> Res Mem unit;
  memory_reserved : Mem -> Z;
  memory_allocated : Mem -> Z;
  max_memory_reserved : Mem -> Z;
  max_memory_allocated : Mem -> Z
}.

(** An object behind a [c10::Allocator*]: its data, the virtual methods of
    [c10::Allocator], and the [CacheAllocator] part when the dynamic type
    derives from it ([dynamic_cast<CacheAllocator*>] gives [nullptr]
    otherwise). *)
Record AllocatorObject := mkAllocatorObject {
  obj_mem : Mem;
  obj_allocate : Z -> Mem -> Res Mem DataPtr;
  obj_raw_deleter : Ptr;
  obj_cache : option CacheAllocator
}.

Definition with_mem (m : Mem) (o : AllocatorObject) : AllocatorObject :=
  {| obj_mem := m; obj_allocate := obj_allocate o;
     obj_raw_deleter := obj_raw_deleter o; obj_cache := obj_cache o |}.

Local Abbreviation Heap := (gmap Z AllocatorObject).

(** [std::function<c10::Allocator*(int)>]: called with a device index, it
    hands back the address of an allocator object, which it may create. *)
Definition Getter : Type := Z -> Heap -> Res Heap Ptr.

(** [std::tuple<std::function<c10::Allocator*(int)>, uint8_t>], with
    [std::make_tuple], [std::get<0>] and [std::get<1>]. *)
Record Entry := make_tuple { get_0 : Getter; get_1 : Z }.

(** ** The process state *)

Record World := mkWorld {
  (** [const auto DIPU_DEVICE_TYPE]: base/basedef.h, which defines it, is
      not among the sources, so its value is left open here. *)
  DIPU_DEVICE_TYPE : DeviceType;
  (** The two [const std::string] globals, fixed at static initialisation. *)
  dipu_device_memcaching_algorithm : string;
  dipu_host_memcaching_algorithm : string;
  (** [gDIPURegisteredAllocatorPtr]; [None] is the null [unique_ptr]. *)
  gDIPURegisteredAllocatorPtr :
    option (gmap DeviceType (gmap string Entry));
  used_allocator : list Ptr;
  (** The function-local statics of [getAllocator], [None] until the first
      call initialises them ([host_index] is a copy of [device_count]). *)
  device_count : option Z;
  allocator_lookup_table : option (list Ptr);
  (** The allocator objects. *)
  heap : Heap;
  (** The [CacheAllocator::DataPtrContextBase] objects: their [streams()]. *)
  contexts : gmap Z (gset Z);
  (** The device runtime: [devproxy::getDeviceCount()],
      [devproxy::current_device()], [getCurrentDIPUStream()] and
      [getDefaultDIPUStream()]. *)
  rt_device_count : Z;
  rt_current_device : Z;
  rt_current_stream : DIPUStream;
  rt_default_stream : DIPUStream;
  (** The calls made so far, oldest first. *)
  calls : list Call
}.

Definition with_registry (r : option (gmap DeviceType (gmap string Entry)))
    (w : World) : World :=
  mkWorld (DIPU_DEVICE_TYPE w) (dipu_device_memcaching_algorithm w)
    (dipu_host_memcaching_algorithm w) r (used_allocator w) (device_count w)
    (allocator_lookup_table w) (heap w) (contexts w) (rt_device_count w)
    (rt_current_device w) (rt_current_stream w) (rt_default_stream w)
    (calls w).

Definition with_used_allocator (u : list Ptr) (w : World) : World :=
  mkWorld (DIPU_DEVICE_TYPE w) (dipu_device_memcaching_algorithm w)
    (dipu_host_memcaching_algorithm w) (gDIPURegisteredAllocatorPtr w) u
    (device_count w) (allocator_lookup_table w) (heap w) (contexts w)
    (rt_device_count w) (rt_current_device w) (rt_current_stream w)
    (rt_default_stream w) (calls w).

Definition with_device_count (c : option Z) (w : World) : World :=
  mkWorld (DIPU_DEVICE_TYPE w) (dipu_device_memcaching_algorithm w)
    (dipu_host_memcaching_algorithm w) (gDIPURegisteredAllocatorPtr w)
    (used_allocator w) c (allocator_lookup_table w) (heap w) (contexts w)
    (rt_device_count w) (rt_current_device w) (rt_current_stream w)
    (rt_default_stream w) (calls w).

Definition with_lookup_table (t : option (list Ptr)) (w : World) : World :=
  mkWorld (DIPU_DEVICE_TYPE w) (dipu_device_memcaching_algorithm w)
    (dipu_host_memcaching_algorithm w) (gDIPURegisteredAllocatorPtr w)
    (used_allocator w) (device_count w) t (heap w) (contexts w)
    (rt_device_count w) (rt_current_device w) (rt_current_stream w)
    (rt_default_stream w) (calls w).

Definition with_heap (h : Heap) (w : World) : World :=
  mkWorld (DIPU_DEVICE_TYPE w) (dipu_device_memcaching_algorithm w)
    (dipu_host_memcaching_algorithm w) (gDIPURegisteredAllocatorPtr w)
    (used_allocator w) (device_count w) (allocator_lookup_table w) h
    (contexts w) (rt_device_count w) (rt_current_device w)
    (rt_current_stream w) (rt_default_stream w) (calls w).

Definition with_contexts (c : gmap Z (gset Z)) (w : World) : World :=
  mkWorld (DIPU_DEVICE_TYPE w) (dipu_device_memcaching_algorithm w)
    (dipu_host_memcaching_algorithm w) (gDIPURegisteredAllocatorPtr w)
    (used_allocator w) (device_count w) (allocator_lookup_table w) (heap w) c
    (rt_device_count w) (rt_current_device w) (rt_current_stream w)
    (rt_default_stream w) (calls w).

Definition with_calls (l : list Call) (w : World) : World :=
  mkWorld (DIPU_DEVICE_TYPE w) (dipu_device_memcaching_algorithm w)
    (dipu_host_memcaching_algorithm w) (gDIPURegisteredAllocatorPtr w)
    (used_allocator w) (device_count w) (allocator_lookup_table w) (heap w)
    (contexts w) (rt_device_count w) (rt_current_device w)
    (rt_current_stream w) (rt_default_stream w) l.

(** Appends one call to the log. *)
Definition emit (c : Call) : World -> Res World unit :=
  modify (fun w => with_calls (calls w ++ [c]) w).

(** ** The algorithm-selection strings *)

Definition dipu_default_memcaching_algorithm : string := "BF".

(** [env ? env : dipu_default_memcaching_algorithm], on what [std::getenv]
    returned. *)
Definition memcaching_algorithm (env : option string) : string :=
  match env with
  | Some s => s
  | None => dipu_default_memcaching_algorithm
  end.

(** ** The registry: [setAllocator] *)

(** [*gDIPURegisteredAllocatorPtr]: undefined on the null pointer. *)
Definition deref_registry
  : World -> Res World (gmap DeviceType (gmap string Entry)) :=
  fun w =>
    match gDIPURegisteredAllocatorPtr w with
    | Some r => Ok r w
    | None => Undefined
    end.

(** [gDIPURegisteredAllocator[device_type]]: [std::map::operator[]] puts an
    empty inner map under a key that is not there yet. *)
Definition registry_at (device_type : DeviceType)
  : World -> Res World (gmap string Entry) :=
  let* r := deref_registry in
  match r !! device_type with
  | Some inner => ret inner
  | None =>
      modify (with_registry (Some (<[device_type := ∅]> r)));;
      ret ∅
  end.

(** [gDIPURegisteredAllocator[device_type][name] = entry]. *)
Definition registry_assign (device_type : DeviceType) (name : string)
    (entry : Entry) : World -> Res World unit :=
  let* inner := registry_at device_type in
  let* r := deref_registry in
  modify (with_registry
            (Some (<[device_type := <[name := entry]> inner]> r))).

Definition setAllocator (name : string) (device_type : DeviceType)
    (allocator_getter : Getter) (priority : Z) : World -> Res World unit :=
  (let* p := gets gDIPURegisteredAllocatorPtr in
   match p with
   | None => modify (with_registry (Some ∅))
   | Some _ => ret tt
   end);;
  let* inner := registry_at device_type in
  match inner !! name with
  | None =>
      registry_assign device_type name (make_tuple allocator_getter priority)
  | Some registered =>
      if get_1 registered <? priority
      then
        registry_assign device_type name
          (make_tuple allocator_getter priority)
      else throw (HigherPriorityRegistered device_type name priority)
  end.

(** ** The per-device allocator cache: [createAllocator], [getAllocator] *)

Definition getDeviceIndex (device : Device) (host_index : Z)
  : World -> Res World Z :=
  if is_cpu device then ret host_index
  else if has_index device then ret (dev_index device)
  else gets rt_current_device.

(** The index [getDeviceIndex] resolves a device to, in a given state of the
    device runtime. *)
Definition device_index_of (device : Device) (host_index : Z) (w : World)
  : Z :=
  if is_cpu device then host_index
  else if has_index device then dev_index device
  else rt_current_device w.

(** Calls a registered getter; it works on the allocator objects. *)
Definition call_getter (g : Getter) (device_index : Z)
  : World -> Res World Ptr :=
  fun w =>
    match g device_index (heap w) with
    | Ok p h => Ok p (with_heap h w)
    | Throw e h => Throw e (with_heap h w)
    | Undefined => Undefined
    end.

(** The local [algorithm] of [createAllocator]. *)
Definition selected_algorithm (device_type : DeviceType) (w : World)
  : string :=
  if bool_decide (device_type = DIPU_DEVICE_TYPE w)
  then dipu_device_memcaching_algorithm w
  else dipu_host_memcaching_algorithm w.

Definition createAllocator (device : Device) : World -> Res World Ptr :=
  let device_type := dev_type device in
  let* _ := deref_registry in
  let* algorithm := gets (selected_algorithm device_type) in
  emit (RegistryCount device_type algorithm);;
  let* inner := registry_at device_type in
  match inner !! algorithm with
  | Some registered =>
      let allocator_geter := get_0 registered in
      let* device_index := getDeviceIndex device 0 in
      emit (CallGetter device_type algorithm device_index);;
      let* allocator := call_getter allocator_geter device_index in
      emit (Created device_type allocator);;
      (let* dipu := gets DIPU_DEVICE_TYPE in
       if bool_decide (device_type = dipu)
       then modify (fun w =>
              with_used_allocator (set_insert allocator (used_allocator w)) w)
       else ret tt);;
      ret allocator
  | None =>
      let* device_algorithm := gets dipu_device_memcaching_algorithm in
      throw (NoAllocatorFound device_type device_algorithm)
  end.

(** [static const int device_count = devproxy::getDeviceCount();] *)
Definition static_device_count : World -> Res World Z :=
  let* s := gets device_count in
  match s with
  | Some c => ret c
  | None =>
      let* c := gets rt_device_count in
      modify (with_device_count (Some c));;
      ret c
  end.

(** [static std::vector<c10::Allocator*>
    allocator_lookup_table(device_count + 1);]: value-initialised, so every
    slot starts as [nullptr]; a negative length, converted to [size_t], is
    more than a vector can hold. *)
Definition static_lookup_table (count : Z) : World -> Res World (list Ptr) :=
  let* s := gets allocator_lookup_table in
  match s with
  | Some t => ret t
  | None =>
      if count + 1 <? 0 then throw LengthError
      else
        let t := replicate (Z.to_nat (count + 1)) nullptr in
        modify (with_lookup_table (Some t));;
        ret t
  end.

(** The body of [getAllocator] once its statics are there.  [allocator] is a
    reference into the table, so the assignment fills the slot; between the
    read of the slot and the assignment only [createAllocator] runs, which
    does not touch the table. *)
Definition lookup_or_create (device : Device) (host_index : Z)
    (table : list Ptr) : World -> Res World Ptr :=
  let* device_index := getDeviceIndex device host_index in
  if (device_index <? 0) || (Z.of_nat (length table) <=? device_index)
  then undefined
  else
    let slot := Z.to_nat device_index in
    match table !! slot with
    | None => undefined
    | Some allocator =>
        if allocator =? nullptr then
          let* created := createAllocator device in
          modify (with_lookup_table (Some (<[slot := created]> table)));;
          ret created
        else ret allocator
    end.

Definition getAllocator (device : Device) : World -> Res World Ptr :=
  let* count := static_device_count in
  let host_index := count in
  let* table := static_lookup_table count in
  lookup_or_create device host_index table.

(** The overload [getAllocator(c10::DeviceType)]. *)
Definition getAllocator_of_type (device_type : DeviceType)
  : World -> Res World Ptr :=
  getAllocator (Device_of_type device_type).

(** ** Calls through an allocator pointer *)

(** [*p]: undefined on [nullptr] and when no allocator object lives at
    [p]. *)
Definition deref_allocator (p : Ptr) : World -> Res World AllocatorObject :=
  fun w =>
    if p =? nullptr then Undefined
    else
      match heap w !! p with
      | Some o => Ok o w
      | None => Undefined
      end.

(** Runs a method of the object at [p] on its data. *)
Definition call_method {A} (p : Ptr) (method : Mem -> Res Mem A)
  : World -> Res World A :=
  let* o := deref_allocator p in
  fun w =>
    match method (obj_mem o) with
    | Ok a m => Ok a (with_heap (<[p := with_mem m o]> (heap w)) w)
    | Throw e m => Throw e (with_heap (<[p := with_mem m o]> (heap w)) w)
    | Undefined => Undefined
    end.

(** [dynamic_cast<CacheAllocator*>(allocator)]; the cast of [nullptr] is
    [nullptr]. *)
Definition dynamic_cast_CacheAllocator (allocator : Ptr)
  : World -> Res World (option CacheAllocator) :=
  if allocator =? nullptr then ret None
  else
    let* o := deref_allocator allocator in
    ret (obj_cache o).

(** ** The global sweeps *)

(** A range-based [for] over a [std::set]. *)
Fixpoint for_each (body : Ptr -> World -> Res World unit) (s : list Ptr)
  : World -> Res World unit :=
  match s with
  | [] => ret tt
  | p :: s' => body p;; for_each body s'
  end.

(** The lambda of [emptyCachedMem]. *)
Definition empty_allocator_cache (allocator : Ptr) : World -> Res World unit :=
  let* cached_allocator := dynamic_cast_CacheAllocator allocator in
  match cached_allocator with
  | Some c =>
      emit (EmptyCache allocator);;
      call_method allocator (empty_cache c)
  | None => ret tt
  end.

Definition emptyCachedMem : World -> Res World unit :=
  let* s := gets used_allocator in
  for_each empty_allocator_cache s.

(** The lambda of [releaseAllDeviceMem]. *)
Definition release_allocator_memory (allocator : Ptr)
  : World -> Res World unit :=
  let* cached_allocator := dynamic_cast_CacheAllocator allocator in
  match cached_allocator with
  | Some c =>
      emit (ReleaseAllMemory allocator);;
      call_method allocator (release_all_memory c)
  | None => ret tt
  end.

Definition releaseAllDeviceMem : World -> Res World unit :=
  let* s := gets used_allocator in
  for_each release_allocator_memory s.

(** ** The statistics queries *)

(** The common body of the four queries; [stat] is the method each calls. *)
Definition memory_stat (stat : CacheAllocator -> Mem -> Z) (device : Device)
  : World -> Res World Z :=
  let* allocator := getAllocator device in
  let* cached_allocator := dynamic_cast_CacheAllocator allocator in
  match cached_allocator with
  | Some c =>
      let* o := deref_allocator allocator in
      ret (stat c (obj_mem o))
  | None => ret 0
  end.

Definition memoryReserved := memory_stat memory_reserved.
Definition memoryAllocated := memory_stat memory_allocated.
Definition maxMemoryReserved := memory_stat max_memory_reserved.
Definition maxMemoryAllocated := memory_stat max_memory_allocated.

(** ** [recordStream] *)

(** [ctx->streams().insert(stream)] when the context is not null; the
    [static_cast] is unchecked, so a context that is not a
    [DataPtrContextBase] is undefined behaviour. *)
Definition recordStream (ptr : DataPtr) (stream : DIPUStream)
  : World -> Res World unit :=
  let ctx := get_context ptr in
  if ctx =? nullptr then ret tt
  else
    fun w =>
      match contexts w !! ctx with
      | Some streams =>
          Ok tt (with_contexts (<[ctx := {[stream]} ∪ streams]> (contexts w)) w)
      | None => Undefined
      end.

(** The overload [recordStream(const at::Tensor&, const DIPUStream&)]. *)
Definition recordStream_tensor (tensor : Tensor) (stream : DIPUStream)
  : World -> Res World unit :=
  recordStream (storage_data_ptr tensor) stream.

(** ** The stream-ordering proxy *)

Record DIPUDeviceCachingProxy := mkProxy { device_type_ : DeviceType }.

(** [getAllocator(device_type_)->allocate(size)]. *)
Definition allocate_through (device_type : DeviceType) (size : Z)
  : World -> Res World DataPtr :=
  let* allocator := getAllocator_of_type device_type in
  emit (Allocate allocator size);;
  let* o := deref_allocator allocator in
  call_method allocator (obj_allocate o size).

(** [DIPUDeviceCachingProxy::allocate]. *)
Definition allocate (self : DIPUDeviceCachingProxy) (size : Z)
  : World -> Res World DataPtr :=
  let* currentStream := gets rt_current_stream in
  let* defaultStream := gets rt_default_stream in
  emit (Cout "c10::DataPtr allocate");;
  (if bool_decide (currentStream ≠ defaultStream)
   then
     emit (EventRecord defaultStream);;
     emit (EventWait currentStream);;
     emit (Cout "currentStream wait ")
   else ret tt);;
  allocate_through (device_type_ self) size.

(** [DIPUDeviceCachingProxy::raw_deleter]. *)
Definition raw_deleter (self : DIPUDeviceCachingProxy)
  : World -> Res World Ptr :=
  let* allocator := getAllocator_of_type (device_type_ self) in
  let* o := deref_allocator allocator in
  ret (obj_raw_deleter o).

(** The global [dipu_default_device_allocator(dipu::DIPU_DEVICE_TYPE)]. *)
Definition dipu_default_device_allocator (w : World)
  : DIPUDeviceCachingProxy :=
  mkProxy (DIPU_DEVICE_TYPE w).

(** ** Observing the registry *)

(** The entry stored for [(device_type, name)], if any. *)
Definition registered (w : World) (device_type : DeviceType) (name : string)
  : option Entry :=
  r ← gDIPURegisteredAllocatorPtr w;
  inner ← r !! device_type;
  inner !! name.

(** The lookup [createAllocator] makes before it calls a getter:
    [gDIPURegisteredAllocator[device_type].count(algorithm) > 0], then
    [std::get<0>] of the entry. *)
Definition resolve (device_type : DeviceType) (algorithm : string)
  : World -> Res World (option Getter) :=
  let* inner := registry_at device_type in
  ret (get_0 <$> inner !! algorithm).

(** Slot [slot] of the lookup table holds [allocator], the table having
    been made for [count] devices. *)
Definition memoized (count : Z) (slot : nat) (allocator : Ptr) (w : World)
  : Prop :=
  device_count w = Some count /\
  exists table,
    allocator_lookup_table w = Some table /\ table !! slot = Some allocator.

(** From [w] to [w'], only the allocator objects at the addresses in [s]
    may have changed, the log has only gained calls [call q] with [q] in
    [s], and [used_allocator] is the same. *)
Definition touched_only (call : Ptr -> Call) (s : list Ptr) (w w' : World)
  : Prop :=
  (forall q, q ∉ s -> heap w' !! q = heap w !! q) /\
  (exists l, calls w' = calls w ++ l /\
             forall c, c ∈ l -> exists q, c = call q /\ q ∈ s) /\
  used_allocator w' = used_allocator w.

(** ** Programs over the interface

    The entry points of the file, and the two things the surrounding program
    does to the device runtime that the file can see. *)
Inductive Op :=
| SetAllocator (name : string) (device_type : DeviceType)
               (allocator_getter : Getter) (priority : Z)
| GetAllocator (device : Device)
| EmptyCachedMem
| ReleaseAllDeviceMem
| MemoryReserved (device : Device)
| MemoryAllocated (device : Device)
| MaxMemoryReserved (device : Device)
| MaxMemoryAllocated (device : Device)
| RecordStream (ptr : DataPtr) (stream : DIPUStream)
| ProxyAllocate (size : Z)
| ProxyRawDeleter
| SetDevice (device_index : Z)
| SetStream (stream : DIPUStream).

Definition set_device (i : Z) (w : World) : World :=
  mkWorld (DIPU_DEVICE_TYPE w) (dipu_device_memcaching_algorithm w)
    (dipu_host_memcaching_algorithm w) (gDIPURegisteredAllocatorPtr w)
    (used_allocator w) (device_count w) (allocator_lookup_table w) (heap w)
    (contexts w) (rt_device_count w) i (rt_current_stream w)
    (rt_default_stream w) (calls w).

Definition set_stream (s : DIPUStream) (w : World) : World :=
  mkWorld (DIPU_DEVICE_TYPE w) (dipu_device_memcaching_algorithm w)
    (dipu_host_memcaching_algorithm w) (gDIPURegisteredAllocatorPtr w)
    (used_allocator w) (device_count w) (allocator_lookup_table w) (heap w)
    (contexts w) (rt_device_count w) (rt_current_device w) s
    (rt_default_stream w) (calls w).

(** Drops the value a call returns. *)
Definition void {A} (m : World -> Res World A) : World -> Res World unit :=
  let* _ := m in ret tt.

Definition run_op (op : Op) : World -> Res World unit :=
  match op with
  | SetAllocator name device_type allocator_getter priority =>
      setAllocator name device_type allocator_getter priority
  | GetAllocator device => void (getAllocator device)
  | EmptyCachedMem => emptyCachedMem
  | ReleaseAllDeviceMem => releaseAllDeviceMem
  | MemoryReserved device => void (memoryReserved device)
  | MemoryAllocated device => void (memoryAllocated device)
  | MaxMemoryReserved device => void (maxMemoryReserved device)
  | MaxMemoryAllocated device => void (maxMemoryAllocated device)
  | RecordStream ptr stream => recordStream ptr stream
  | ProxyAllocate size =>
      fun w => void (allocate (dipu_default_device_allocator w) size) w
  | ProxyRawDeleter =>
      fun w => void (raw_deleter (dipu_default_device_allocator w)) w
  | SetDevice i => modify (set_device i)
  | SetStream s => modify (set_stream s)
  end.

(** Runs a program; a call that throws is caught by its caller and the
    program goes on from the state the throw left.  [None] once a call has
    undefined behaviour. *)
Fixpoint run (ops : list Op) (w : World) : option World :=
  match ops with
  | [] => Some w
  | op :: ops' =>
      match final_state (run_op op w) with
      | Some w' => run ops' w'
      | None => None
      end
  end.

(** ** Invariants

    The vocabulary of the invariance proofs below. *)

(** [m] keeps [P]: from a state where [P] holds, the state [m] returns in,
    or throws in, satisfies [P]. *)
Definition preserves {A} (P : World -> Prop)
    (m : World -> Res World A) : Prop :=
  forall w, P w ->
    match m w with
    | Ok _ w' => P w'
    | Throw _ w' => P w'
    | Undefined => True
    end.

(** The properties the code outside [createAllocator] and [getAllocator]
    cannot break: those that survive a logged call that is no stream
    synchronisation, and any change of the allocator objects, of the
    registry, of the stream sets and of the device runtime. *)
Record stable (P : World -> Prop) : Prop := mkStable {
  stable_calls : forall w c,
    is_sync c = false -> P w -> P (with_calls (calls w ++ [c]) w);
  stable_heap : forall w h, P w -> P (with_heap h w);
  stable_registry : forall w r, P w -> P (with_registry r w);
  stable_contexts : forall w c, P w -> P (with_contexts c w);
  stable_device : forall w i, P w -> P (set_device i w);
  stable_stream : forall w s, P w -> P (set_stream s w)
}.

(** [P] survives the insertion into [used_allocator] of an allocator that a
    getter returned for [device_type], when that is the accelerator device
    class. *)
Definition used_ok (P : World -> Prop) (device_type : DeviceType)
  : Prop :=
  forall w p,
    P w -> device_type = DIPU_DEVICE_TYPE w ->
    Created device_type p ∈ calls w ->
    P (with_used_allocator (set_insert p (used_allocator w)) w).

(** [P] does not look at the statics of [getAllocator]. *)
Definition statics_ok (P : World -> Prop) : Prop :=
  (forall w c, P w -> P (with_device_count c w)) /\
  (forall w t, P w -> P (with_lookup_table t w)).

(** Every member of [used_allocator] was returned by a getter that
    [createAllocator] called for the accelerator device class. *)
Definition used_created (w : World) : Prop :=
  forall p, p ∈ used_allocator w -> Created (DIPU_DEVICE_TYPE w) p ∈ calls w.

End Model.

Arguments CacheAllocator Mem : clear implicits.
Arguments AllocatorObject Mem : clear implicits.
Abbreviation Heap Mem := (gmap Z (AllocatorObject Mem)).
Arguments Getter Mem : clear implicits.
Arguments Entry Mem : clear implicits.
Arguments World Mem : clear implicits.
Arguments Op Mem : clear implicits.

(** * A caching algorithm under the stream clock *)

Module CachingAllocatorModel.

(** Modelled from the spec: the caching algorithms behind [CacheAllocator]
    (their [allocate], their [free] and the deferred reclaim of freed blocks)
    are not among the sources.  This is the contract sections 3, 4.3, 4.4, 5
    and 8 of the specification give for them: a live allocation carries a
    recorded-streams set; [recordStream] adds a stream to it and is a no-op
    for a stream already there; [free] defers the block until every recorded
    stream has retired all prior work; the deferral is checked, not awaited,
    at the next [allocate], which asks the device runtime for the completion
    status of each recorded stream and returns to the free pool the blocks
    for which every answer is yes; [allocate] then serves the request from
    the free pool or from new device memory, by a policy left to the
    algorithm.  Streams follow section 8's controllable clock: a stream
    counts the work enqueued on it and the work it has retired. *)

Inductive Status := InUse | Deferred | Free.

#[global] Instance Status_eq_dec : EqDecision Status.
Proof. solve_decision. Defined.

(** Modelled from the spec: a block of device memory of a caching algorithm
    (none is among the sources).  [streams] is the recorded-streams set, the
    set the source's [recordStream] inserts into.  [pending] is filled when
    the block is freed: it maps each recorded stream to its recording point,
    the amount of work enqueued on the stream up to the [free]. *)
Record Block := mkBlock {
  block_size : Z;
  status : Status;
  streams : gset Z;
  pending : gmap Z nat
}.

Record State := mkState {
  enqueued : gmap Z nat;
  retired : gmap Z nat;
  blocks : gmap Z Block
}.

Definition initial : State := mkState ∅ ∅ ∅.

(** Work enqueued on, and retired by, a stream; 0 for a stream never used. *)
Definition enqueued_on (st : State) (s : Z) : nat :=
  default 0%nat (enqueued st !! s).
Definition retired_by (st : State) (s : Z) : nat :=
  default 0%nat (retired st !! s).

(** Modelled from the spec: the device runtime's completion query, which
    is not among the sources: has [s] retired the work enqueued before
    [point]? *)
Definition query (st : State) (s : Z) (point : nat) : bool :=
  (point <=? retired_by st s)%nat.

(** Modelled from the spec: the completion status is queried per recorded
    stream, and every recorded stream has to answer yes. *)
Definition fully_retired (st : State) (b : Block) : bool :=
  forallb (fun s => query st s (default 0%nat (pending b !! s)))
    (elements (streams b)).

(** Modelled from the spec: the lazy check of the deferred blocks of a
    caching algorithm (section 5: checked, not awaited). *)
Definition reclaim_block (st : State) (b : Block) : Block :=
  match status b with
  | Deferred =>
      if fully_retired st b
      then mkBlock (block_size b) Free (streams b) (pending b)
      else b
  | _ => b
  end.

Definition reclaim (st : State) : State :=
  mkState (enqueued st) (retired st) (reclaim_block st <$> blocks st).

Section Policy.

(** The algorithm's choice of a block for a request, given the blocks. *)
Variable policy : Z -> gmap Z Block -> option Z.

(** Modelled from the spec: [allocate(size)] of a caching algorithm, which
    is not among the sources: the address handed out and the new state.  A
    choice of the policy is honoured when it is a block of the free pool that
    is large enough; otherwise new device memory is reserved.  The new
    allocation starts with no stream recorded. *)
Definition allocate (size : Z) (st : State) : Z * State :=
  let st1 := reclaim st in
  let reuse :=
    a ← policy size (blocks st1);
    b ← blocks st1 !! a;
    if bool_decide (status b = Free) && (size <=? block_size b)
    then Some (a, b) else None in
  match reuse with
  | Some (a, b) =>
      (a, mkState (enqueued st1) (retired st1)
            (<[a := mkBlock (block_size b) InUse ∅ ∅]> (blocks st1)))
  | None =>
      let a := fresh (dom (blocks st1)) in
      (a, mkState (enqueued st1) (retired st1)
            (<[a := mkBlock size InUse ∅ ∅]> (blocks st1)))
  end.

(** Modelled from the spec: [free(handle)] of a caching algorithm, which is
    not among the sources: the block is deferred, with the recording point
    of each recorded stream taken; nothing is awaited. *)
Definition free (a : Z) (st : State) : State :=
  match blocks st !! a with
  | Some b =>
      match status b with
      | InUse =>
          mkState (enqueued st) (retired st)
            (<[a := mkBlock (block_size b) Deferred (streams b)
                      (set_to_map (fun s => (s, enqueued_on st s))
                         (streams b))]> (blocks st))
      | _ => st
      end
  | None => st
  end.

(** Modelled from the spec: [recordStream(allocation, stream)] seen from
    the caching algorithm, whose blocks are not among the sources, on a live
    allocation: the stream is inserted into the recorded-streams set, which
    is all that the source's [recordStream] stores. *)
Definition recordStream (a : Z) (s : Z) (st : State) : State :=
  match blocks st !! a with
  | Some b =>
      match status b with
      | InUse =>
          mkState (enqueued st) (retired st)
            (<[a := mkBlock (block_size b) InUse ({[s]} ∪ streams b)
                      (pending b)]> (blocks st))
      | _ => st
      end
  | None => st
  end.

(** The clock: one more piece of work enqueued on [s]. *)
Definition enqueue (s : Z) (st : State) : State :=
  mkState (<[s := S (enqueued_on st s)]> (enqueued st)) (retired st)
    (blocks st).

(** The clock: [s] retires its oldest pending piece of work, if any. *)
Definition retire (s : Z) (st : State) : State :=
  if (retired_by st s <? enqueued_on st s)%nat
  then mkState (enqueued st) (<[s := S (retired_by st s)]> (retired st))
         (blocks st)
  else st.

Inductive Step :=
| DoAllocate (size : Z)
| DoFree (a : Z)
| DoRecordStream (a : Z) (s : Z)
| DoEnqueue (s : Z)
| DoRetire (s : Z).

Definition step (l : Step) (st : State) : State :=
  match l with
  | DoAllocate size => (allocate size st).2
  | DoFree a => free a st
  | DoRecordStream a s => recordStream a s st
  | DoEnqueue s => enqueue s st
  | DoRetire s => retire s st
  end.

(** The state after a sequence of steps, first step first. *)
Definition steps (ls : list Step) (st : State) : State :=
  foldl (fun st l => step l st) st ls.

End Policy.

(** The allocation at [a] is live and [s] is in its recorded-streams set. *)
Definition recorded_live (a s : Z) (st : State) : Prop :=
  exists b, blocks st !! a = Some b /\ status b = InUse /\ s ∈ streams b.

(** The recorded stream [s] has retired the work up to [point], or the
    block at [a] is still deferred and waits for it. *)
Definition retired_or_waiting (a s : Z) (point : nat) (st : State) : Prop :=
  (point <= retired_by st s)%nat \/
  exists b, blocks st !! a = Some b /\ status b = Deferred /\
            s ∈ streams b /\ pending b !! s = Some point.

(** A policy: a block of the free pool that is large enough. *)
Definition first_fit (size : Z) (bs : gmap Z Block) : option Z :=
  fst <$> head (filter (fun '(_, b) => bool_decide (status b = Free)
                                       && (size <=? block_size b))
                       (map_to_list bs)).

End CachingAllocatorModel.

(** * Observations for the further properties *)

(** The order of a [std::set<c10::Allocator*>]: every address is below the
    addresses after it. *)
Fixpoint strictly_increasing (s : list Z) : Prop :=
  match s with
  | [] => True
  | p :: s' => Forall (fun q => p < q) s' /\ strictly_increasing s'
  end.

Section Observations.

Context {Mem : Type}.


(** What [dynamic_cast<CacheAllocator*>(p)] gives in a state, where the cast
    is defined. *)
Definition cache_part (w : World Mem) (p : Ptr)
  : option (CacheAllocator Mem) :=
  if p =? nullptr then None
  else o ← heap w !! p; obj_cache o.

(** What a statistics query answers for the allocator object [o]: the
    method's value for a [CacheAllocator], 0 for any other allocator. *)
Definition statistic (stat : CacheAllocator Mem -> Mem -> Z)
    (o : AllocatorObject Mem) : Z :=
  match obj_cache o with
  | Some c => stat c (obj_mem o)
  | None => 0
  end.

(** The allocator at [p] can be swept with [method]: it is [nullptr], or
    an allocator object on whose data [method], if the object is a
    [CacheAllocator], returns. *)
Definition sweepable (method : CacheAllocator Mem -> Mem -> Res Mem unit)
    (w : World Mem) (p : Ptr) : Prop :=
  p = nullptr \/
  exists o, heap w !! p = Some o /\
            forall c, obj_cache o = Some c ->
                      exists m', method c (obj_mem o) = Ok tt m'.

End Observations.

(** * Layer normalisation on Ascend

    [impl/ascend/functions/layer_norm.cpp]: the stride helper, and the
    forward operator as the sequence of calls it makes to the DIOPI runtime
    and to the ACL operator runner, neither of which is among the sources. *)

Module LayerNorm.

(** ** [computeStrideFromShape] *)

(** The range of [int64_t]. *)
Definition in_int64 (z : Z) : bool := (- 2 ^ 63 <=? z) && (z <? 2 ^ 63).

(** [a * b] on [int64_t]; signed overflow is undefined behaviour. *)
Definition mul_int64 (a b : Z) : option Z :=
  if in_int64 (a * b) then Some (a * b) else None.

(** [std::vector<int64_t>::resize(n, value)]: the first [n] elements are
    kept, and [value] fills up to [n]. *)
Definition resize (n : nat) (value : Z) (v : list Z) : list Z :=
  take n v ++ replicate (n - length v) value.

(** The loop [for (i = shape.len - 2; i >= 0; --i)
    strideVec[i] = strideVec[i + 1] * shape.data[i + 1];] with [k]
    iterations left, the next one at index [k - 1]. *)
Fixpoint stride_loop (k : nat) (shape strideVec : list Z)
  : option (list Z) :=
  match k with
  | O => Some strideVec
  | S i =>
      next ← strideVec !! S i;
      extent ← shape !! S i;
      stride ← mul_int64 next extent;
      stride_loop i shape (<[i := stride]> strideVec)
  end.

(** A [diopiSize_t] is the list of its [len] values.  The result is the
    vector after the call, which is also what the returned [diopiSize_t]
    views; [None] is undefined behaviour. *)
Definition computeStrideFromShape (shape strideVec : list Z)
  : option (list Z) :=
  stride_loop (length shape - 1) shape (resize (length shape) 1 strideVec).

(** The product of the extents in [l]. *)
Definition product (l : list Z) : Z := foldr Z.mul 1 l.

(** ** The DIOPI runtime, as this file uses it *)

(** What [AscendTensor(t)] and [diopiGetTensorShape] read of a tensor. *)
Record TensorMeta := mkTensorMeta {
  numel : Z;
  dtype : Z;
  tensor_shape : list Z
}.

Inductive diopiError_t := diopiSuccess | diopiErrorOccurred.

Section Runtime.

(** Floating-point values are passed on or converted, never computed
    with: [F] stands for them, of single and of double precision alike,
    [of_int] for the conversion of an integer literal, and [to_float] for
    the conversion of a [double] to [float], which rounds. *)
Context {F : Type}.
Variable of_int : Z -> F.
Variable to_float : F -> F.

Inductive Attr := AttrInt (value : Z) | AttrFloat (value : F).

(** The calls made to the runtime: [diopiRequireTensor] with the handle it
    wrote to [out], [diopiFill] with its scalar, and a run of
    [AclOpRunner] with its inputs, outputs and attributes in the order they
    were added. *)
Inductive RuntimeCall :=
| RequireTensor (shape stride : list Z) (dtype : Z) (out : Z)
| Fill (tensor : Z) (value : F)
| RunOp (name : string) (inputs outputs : list Z)
        (attrs : list (string * Attr)).

(** The runtime: the tensors it knows, the handle [diopiRequireTensor]
    gives next, and the calls made so far. *)
Record Runtime := mkRuntime {
  tensors : gmap Z TensorMeta;
  next_handle : Z;
  runtime_calls : list RuntimeCall
}.

Definition log (c : RuntimeCall) (rt : Runtime) : Runtime :=
  mkRuntime (tensors rt) (next_handle rt) (runtime_calls rt ++ [c]).

(** [diopiRequireTensor(ctx, &out, &shape, &stride, dtype, diopi_device)];
    its error code is not looked at by the caller. *)
Definition diopiRequireTensor (shape stride : list Z) (dtype : Z)
    (rt : Runtime) : Z * Runtime :=
  let out := next_handle rt in
  (out,
   mkRuntime
     (<[out := mkTensorMeta (product shape) dtype shape]> (tensors rt))
     (out + 1)
     (runtime_calls rt ++ [RequireTensor shape stride dtype out])).

Definition createTensorIfNullptr (input : Z) (shape stride : list Z)
    (dtype : Z) (isFillingRequired : bool) (value : F) (rt : Runtime)
  : Z * Runtime :=
  if input =? nullptr then
    let '(out, rt1) := diopiRequireTensor shape stride dtype rt in
    if isFillingRequired then (out, log (Fill out value) rt1)
    else (out, rt1)
  else (input, rt).

(** [const int axis = inShape.len - normalizedShape.len;]: the difference
    of two [int64_t] narrowed to [int]. *)
Definition to_int (z : Z) : Z := (z + 2 ^ 31) mod 2 ^ 32 - 2 ^ 31.

(** [diopiLayerNorm]; [None] when the input handle is no tensor of the
    runtime or the strides overflow.  [eps] is a [double], and
    [setAttr<float>("epsilon", eps)] narrows it to [float]. *)
Definition diopiLayerNorm (out saveMean saveInvstd input weight bias : Z)
    (normalizedShape : list Z) (eps : F) (rt : Runtime)
  : option (diopiError_t * Runtime) :=
  inputAt ← tensors rt !! input;
  if numel inputAt =? 0 then
    Some (diopiSuccess,
          log (RunOp "Fills" [out] [out] [("value", AttrFloat (of_int 0))]) rt)
  else
    normalizedStride ← computeStrideFromShape normalizedShape [];
    let '(weightTemp, rt1) :=
      createTensorIfNullptr weight normalizedShape normalizedStride
        (dtype inputAt) true (of_int 1) rt in
    let '(biasTemp, rt2) :=
      createTensorIfNullptr bias normalizedShape normalizedStride
        (dtype inputAt) true (of_int 0) rt1 in
    inShape ← tensor_shape <$> tensors rt2 !! input;
    let axis := to_int (Z.of_nat (length inShape)
                        - Z.of_nat (length normalizedShape)) in
    let beginDim := axis in
    Some (diopiSuccess,
          log (RunOp "LayerNorm" [input; weightTemp; biasTemp]
                 [out; saveMean; saveInvstd]
                 [("begin_norm_axis", AttrInt beginDim);
                  ("begin_params_axis", AttrInt beginDim);
                  ("epsilon", AttrFloat (to_float eps))]) rt2).

(** ** Observations *)

(** The handles from [next_handle] on are not in use yet. *)
Definition handles_fresh (rt : Runtime) : Prop :=
  forall h, next_handle rt <= h -> tensors rt !! h = None.

(** The calls seen when a filled tensor is created in the place of a null
    [input] and gets the handle [h]. *)
Definition creation_calls (input : Z) (shape stride : list Z) (dtype : Z)
    (value : F) (h : Z) : list RuntimeCall :=
  if input =? nullptr then [RequireTensor shape stride dtype h; Fill h value]
  else [].

End Runtime.

Arguments Attr F : clear implicits.
Arguments RuntimeCall F : clear implicits.
Arguments Runtime F : clear implicits.

End LayerNorm.

(** * Sample states *)

Module Examples.

(** A caching algorithm whose private data is the number of bytes it holds:
    trimming and releasing return them all. *)
Definition counting : CacheAllocator nat :=
  mkCacheAllocator (fun _ => Ok tt 0%nat) (fun _ => Ok tt 0%nat)
    Z.of_nat Z.of_nat Z.of_nat Z.of_nat.

(** One whose trim and release fail with a device-runtime error. *)
Definition broken : CacheAllocator nat :=
  mkCacheAllocator (fun m => Throw (AllocatorFailure 1) m)
    (fun m => Throw (AllocatorFailure 2) m)
    Z.of_nat Z.of_nat Z.of_nat Z.of_nat.

Definition allocator_object (methods : CacheAllocator nat)
  : AllocatorObject nat :=
  mkAllocatorObject 0%nat
    (fun size m => Ok (mkDataPtr 4096 nullptr) (m + Z.to_nat size)%nat)
    8192 (Some methods).

(** A getter with one static instance per device index, at address
    [base + index]; the instance of device 1 is the broken one when
    [faulty] is set. *)
Definition getter (base : Z) (faulty : bool) : Getter nat :=
  fun device_index objects =>
    let p := base + device_index in
    match objects !! p with
    | Some _ => Ok p objects
    | None =>
        let methods :=
          if faulty && (device_index =? 1) then broken else counting in
        Ok p (<[p := allocator_object methods]> objects)
    end.

(** Process start on a machine with three devices, nothing set in the
    environment, the accelerator class being [XPU]. *)
Definition start : World nat :=
  mkWorld XPU (memcaching_algorithm None) (memcaching_algorithm None)
    None [] None None ∅ ∅ 3 0 0 0 [].

(** The state a call ends in. *)
Definition after {A} (r : Res (World nat) A) : World nat :=
  match r with
  | Ok _ w => w
  | Throw _ w => w
  | Undefined => start
  end.

(** "BF" registered for the accelerator class with priority 1. *)
Definition registered_once : World nat :=
  after (setAllocator "BF" XPU (getter 100 false) 1 start).

(** Then the allocator of device 0 created. *)
Definition device0_ready : World nat :=
  after (getAllocator (mkDevice XPU 0) registered_once).

(** A program run from the state above. *)
Definition later_program : list (Op nat) :=
  [GetAllocator (mkDevice XPU 1); EmptyCachedMem; SetDevice 2;
   GetAllocator (mkDevice CPU (-1)); MemoryReserved (mkDevice XPU 0)].

Definition device0_later : World nat :=
  default start (run later_program device0_ready).

(** A program that registers a caching algorithm and creates the allocators
    of the three devices, the second of which is the broken one. *)
Definition three_devices_program : list (Op nat) :=
  [SetAllocator "BF" XPU (getter 100 true) 1;
   GetAllocator (mkDevice XPU 0); GetAllocator (mkDevice XPU 1);
   GetAllocator (mkDevice XPU 2)].

Definition three_devices : World nat :=
  default start (run three_devices_program start).

(** The same start with the caller on stream 5. *)
Definition on_stream_5 : World nat := set_stream 5 registered_once.

(** Device 0 ready, and two blocks handed out: the one behind context 7
    has been used on stream 1, the one behind context 9 on no stream. *)
Definition with_blocks : World nat :=
  with_contexts (<[7 := {[1]}]> (<[9 := ∅]> ∅)) device0_ready.

(** A host allocator that is no [CacheAllocator], registered for [CPU], and
    the state after it has been created. *)
Definition plain_object : AllocatorObject nat :=
  mkAllocatorObject 0%nat (fun size m => Ok (mkDataPtr 4096 nullptr) m)
    8192 None.

Definition host_getter : Getter nat :=
  fun _ objects => Ok 900 (<[900 := plain_object]> objects).

Definition host_ready : World nat :=
  after (getAllocator (mkDevice CPU (-1))
           (after (setAllocator "BF" CPU host_getter 0 device0_ready))).

(** Floating-point values that are integers, written as integers: the
    conversion of such a [double] to [float] keeps 24 bits of significand
    and rounds to the nearest value, ties to even (the sample values are
    far from the overflow of [float]). *)
Definition round_to_float (z : Z) : Z :=
  let m := Z.abs z in
  if m <? 2 ^ 24 then z
  else
    let k := Z.log2 m - 23 in
    let q := m / 2 ^ k in
    let r := m mod 2 ^ k in
    let half := 2 ^ (k - 1) in
    let q' := if (half <? r) || ((r =? half) && Z.odd q) then q + 1 else q in
    Z.sgn z * (q' * 2 ^ k).

(** A DIOPI runtime that knows a tensor of shape 2x3x4 at handle 1 and one
    without elements at handle 2. *)
Definition runtime : LayerNorm.Runtime Z :=
  LayerNorm.mkRuntime
    (<[1 := LayerNorm.mkTensorMeta 24 9 [2; 3; 4]]>
       (<[2 := LayerNorm.mkTensorMeta 0 9 [0; 4]]> ∅))
    10 [].

End Examples.

(** * Properties *)

Section Properties.

Context {Mem : Type}.
Implicit Types (w : World Mem) (g : Getter Mem).

(** ** The registry *)

Ltac run_registry :=
  unfold setAllocator, resolve, registry_assign, registry_at, deref_registry,
    bind, gets, modify, ret, throw; simpl.

Ltac stored :=
  unfold registered; simpl; rewrite lookup_insert_eq; simpl;
  by rewrite lookup_insert_eq.

Lemma registered_Some w device_type name entry :
  registered w device_type name = Some entry ->
  exists r inner,
    gDIPURegisteredAllocatorPtr w = Some r /\
    r !! device_type = Some inner /\
    inner !! name = Some entry.
Proof.
  unfold registered. intros H.
  destruct (gDIPURegisteredAllocatorPtr w) as [r|]; simpl in H; [|done].
  destruct (r !! device_type) as [inner|] eqn:Hr; simpl in H; [|done].
  eauto.
Qed.

(** A registration that passes the priority test stores its entry. *)
Lemma setAllocator_stores w name device_type g priority :
  (forall registered_entry,
      registered w device_type name = Some registered_entry ->
      get_1 registered_entry < priority) ->
  exists w',
    setAllocator name device_type g priority w = Ok tt w' /\
    registered w' device_type name = Some (make_tuple g priority).
Proof.
  intros Hprio. unfold registered in Hprio. run_registry.
  destruct (gDIPURegisteredAllocatorPtr w) as [r|] eqn:Hp; simpl in *;
    rewrite ?Hp; simpl.
  - destruct (r !! device_type) as [inner|] eqn:Hr; simpl in *.
    + destruct (inner !! name) as [old|] eqn:Hin; simpl.
      * specialize (Hprio old eq_refl).
        destruct (Z.ltb_spec (get_1 old) priority); [|lia].
        repeat (progress (rewrite ?Hp, ?Hr; simpl)).
        eexists; split; [reflexivity|]. stored.
      * repeat (progress (rewrite ?Hp, ?Hr; simpl)).
        eexists; split; [reflexivity|]. stored.
    + repeat (progress (rewrite ?lookup_empty, ?lookup_insert_eq; simpl)).
      eexists; split; [reflexivity|]. stored.
  - repeat (progress (rewrite ?lookup_empty, ?lookup_insert_eq; simpl)).
    eexists; split; [reflexivity|]. stored.
Qed.

(** A registration that fails the priority test throws and changes
    nothing. *)
Lemma setAllocator_conflict w name device_type g priority old :
  registered w device_type name = Some old ->
  priority <= get_1 old ->
  setAllocator name device_type g priority w
  = Throw (HigherPriorityRegistered device_type name priority) w.
Proof.
  intros Hreg Hle.
  destruct (registered_Some _ _ _ _ Hreg) as (r & inner & Hr & Hdt & Hin).
  run_registry. repeat (progress (rewrite ?Hr, ?Hdt, ?Hin; simpl)).
  destruct (Z.ltb_spec (get_1 old) priority); [lia|reflexivity].
Qed.

(** What a registration that returned has stored. *)
Lemma setAllocator_Ok_registered w w' name device_type g priority :
  setAllocator name device_type g priority w = Ok tt w' ->
  registered w' device_type name = Some (make_tuple g priority).
Proof.
  intros Hok.
  destruct (registered w device_type name) as [old|] eqn:Hreg.
  - destruct (Z.lt_ge_cases (get_1 old) priority) as [Hlt|Hge].
    + destruct (setAllocator_stores w name device_type g priority) as (w2 & H1 & H2).
      { intros e He. congruence. }
      congruence.
    + rewrite (setAllocator_conflict _ _ _ _ _ _ Hreg Hge) in Hok. done.
  - destruct (setAllocator_stores w name device_type g priority) as (w2 & H1 & H2).
    { intros e He. congruence. }
    congruence.
Qed.

Lemma registered_resolve w device_type name entry :
  registered w device_type name = Some entry ->
  resolve device_type name w = Ok (Some (get_0 entry)) w.
Proof.
  intros Hreg.
  destruct (registered_Some _ _ _ _ Hreg) as (r & inner & Hr & Hdt & Hin).
  run_registry. by repeat (progress (rewrite ?Hr, ?Hdt, ?Hin; simpl)).
Qed.

(** C3: once [name] is registered for [device_type] with priority [P1], a
    registration of the same name with a strictly higher priority [P2]
    returns normally and replaces the entry: the registry then holds the
    getter and priority of the second registration, and the lookup
    [createAllocator] makes finds that getter. *)
Theorem setAllocator_higher_priority_replaces
    w w1 name device_type g1 g2 P1 P2 :
  setAllocator name device_type g1 P1 w = Ok tt w1 ->
  P1 < P2 ->
  exists w2,
    setAllocator name device_type g2 P2 w1 = Ok tt w2 /\
    registered w2 device_type name = Some (make_tuple g2 P2) /\
    resolve device_type name w2 = Ok (Some g2) w2.
Proof.
  intros Hfirst Hlt.
  apply setAllocator_Ok_registered in Hfirst.
  destruct (setAllocator_stores w1 name device_type g2 P2) as (w2 & Hok & Hreg).
  { intros e He. rewrite Hfirst in He. injection He as <-. exact Hlt. }
  exists w2. split; [exact Hok|]. split; [exact Hreg|].
  exact (registered_resolve _ _ _ _ Hreg).
Qed.

(** C4, amended: once [name] is registered for [device_type] with priority
    [P2], a registration of the same name with a priority [P1 <= P2] throws
    the "higher priority allocator is already registered" error and changes
    nothing: the entry of priority [P2] stays, and the lookup of
    [createAllocator] still finds its getter. *)
Theorem setAllocator_lower_priority_throws_keeps_entry
    w w1 name device_type g1 g2 P1 P2 :
  setAllocator name device_type g2 P2 w = Ok tt w1 ->
  P1 <= P2 ->
  setAllocator name device_type g1 P1 w1
  = Throw (HigherPriorityRegistered device_type name P1) w1 /\
  registered w1 device_type name = Some (make_tuple g2 P2) /\
  resolve device_type name w1 = Ok (Some g2) w1.
Proof.
  intros Hfirst Hle.
  apply setAllocator_Ok_registered in Hfirst.
  split; [|split].
  - exact (setAllocator_conflict _ _ _ _ _ _ Hfirst Hle).
  - exact Hfirst.
  - exact (registered_resolve _ _ _ _ Hfirst).
Qed.

(** C5: when [(device_type, name)] already has an entry, a registration of
    the same name with a priority lower than or equal to the entry's throws
    the error whose message starts "A higher priority allocator is already
    registered for the same device:" and carries the device type, the name
    and the priority of the rejected registration; the state is unchanged. *)
Theorem setAllocator_lower_or_equal_priority_fails
    w name device_type g priority old :
  registered w device_type name = Some old ->
  priority <= get_1 old ->
  exists e,
    setAllocator name device_type g priority w = Throw e w /\
    e = HigherPriorityRegistered device_type name priority /\
    what e = higher_priority_message.
Proof.
  intros Hreg Hle. eexists. split; [|split; reflexivity].
  exact (setAllocator_conflict _ _ _ _ _ _ Hreg Hle).
Qed.

(** ** Invariants of monadic code *)

Implicit Types (P : World Mem -> Prop).

Lemma preserves_ret {A} P (a : A) : preserves P (ret a).
Proof. intros w H. exact H. Qed.

Lemma preserves_gets {A} P (f : World Mem -> A) : preserves P (gets f).
Proof. intros w H. exact H. Qed.

Lemma preserves_throw {A} P e : preserves P (@throw _ A e).
Proof. intros w H. exact H. Qed.

Lemma preserves_undefined {A} P : preserves P (@undefined _ A).
Proof. intros w H. exact I. Qed.

Lemma preserves_modify P f :
  (forall w, P w -> P (f w)) -> preserves P (modify f).
Proof. intros Hf w H. apply Hf, H. Qed.

Lemma preserves_bind {A B} P (m : World Mem -> Res (World Mem) A)
    (k : A -> World Mem -> Res (World Mem) B) :
  preserves P m -> (forall a, preserves P (k a)) -> preserves P (bind m k).
Proof.
  intros Hm Hk w H. unfold bind. specialize (Hm w H).
  destruct (m w) as [a w'| |]; [apply Hk, Hm|exact Hm|exact I].
Qed.

Section Stable.

Variable P : World Mem -> Prop.
Hypothesis HP : stable P.

Lemma preserves_emit c : is_sync c = false -> preserves P (emit c).
Proof. intros Hc. apply preserves_modify. intros w. by apply stable_calls. Qed.

Lemma preserves_deref_registry : preserves P deref_registry.
Proof.
  intros w H. unfold deref_registry.
  by destruct (gDIPURegisteredAllocatorPtr w).
Qed.

Lemma preserves_registry_at device_type :
  preserves P (registry_at device_type).
Proof.
  apply preserves_bind; [apply preserves_deref_registry|]. intros r.
  destruct (r !! device_type); [apply preserves_ret|].
  apply preserves_bind; [|intros; apply preserves_ret].
  apply preserves_modify. intros w. by apply stable_registry.
Qed.

Lemma preserves_registry_assign device_type name entry :
  preserves P (registry_assign device_type name entry).
Proof.
  apply preserves_bind; [apply preserves_registry_at|]. intros inner.
  apply preserves_bind; [apply preserves_deref_registry|]. intros r.
  apply preserves_modify. intros w. by apply stable_registry.
Qed.

Lemma preserves_setAllocator name device_type g priority :
  preserves P (setAllocator name device_type g priority).
Proof.
  apply preserves_bind.
  { apply preserves_bind; [apply preserves_gets|]. intros [r|].
    - apply preserves_ret.
    - apply preserves_modify. intros w. by apply stable_registry. }
  intros _. apply preserves_bind; [apply preserves_registry_at|].
  intros inner. destruct (inner !! name) as [old|].
  - destruct (get_1 old <? priority).
    + apply preserves_registry_assign.
    + apply preserves_throw.
  - apply preserves_registry_assign.
Qed.

Lemma preserves_getDeviceIndex device host_index :
  preserves P (getDeviceIndex device host_index).
Proof.
  unfold getDeviceIndex. destruct (is_cpu device); [apply preserves_ret|].
  destruct (has_index device); [apply preserves_ret|apply preserves_gets].
Qed.

Lemma preserves_call_getter g device_index :
  preserves P (call_getter g device_index).
Proof.
  intros w H. unfold call_getter.
  destruct (g device_index (heap w)); try exact I; by apply stable_heap.
Qed.

Lemma preserves_deref_allocator p : preserves P (deref_allocator p).
Proof.
  intros w H. unfold deref_allocator.
  destruct (p =? nullptr); [exact I|]. by destruct (heap w !! p).
Qed.

Lemma preserves_call_method {A} p (method : Mem -> Res Mem A) :
  preserves P (call_method p method).
Proof.
  apply preserves_bind; [apply preserves_deref_allocator|]. intros o w H.
  destruct (method (obj_mem o)); try exact I; by apply stable_heap.
Qed.

Lemma preserves_dynamic_cast p : preserves P (dynamic_cast_CacheAllocator p).
Proof.
  unfold dynamic_cast_CacheAllocator.
  destruct (p =? nullptr); [apply preserves_ret|].
  apply preserves_bind; [apply preserves_deref_allocator|].
  intros o. apply preserves_ret.
Qed.

Lemma preserves_empty_allocator_cache p :
  preserves P (empty_allocator_cache p).
Proof.
  apply preserves_bind; [apply preserves_dynamic_cast|]. intros [c|].
  - apply preserves_bind; [by apply preserves_emit|].
    intros _. apply preserves_call_method.
  - apply preserves_ret.
Qed.

Lemma preserves_release_allocator_memory p :
  preserves P (release_allocator_memory p).
Proof.
  apply preserves_bind; [apply preserves_dynamic_cast|]. intros [c|].
  - apply preserves_bind; [by apply preserves_emit|].
    intros _. apply preserves_call_method.
  - apply preserves_ret.
Qed.

Lemma preserves_for_each body s :
  (forall p, preserves P (body p)) -> preserves P (for_each body s).
Proof.
  intros Hbody. induction s as [|p s IH]; simpl.
  - apply preserves_ret.
  - apply preserves_bind; [apply Hbody|]. intros _. exact IH.
Qed.

Lemma preserves_emptyCachedMem : preserves P emptyCachedMem.
Proof.
  apply preserves_bind; [apply preserves_gets|]. intros s.
  apply preserves_for_each, preserves_empty_allocator_cache.
Qed.

Lemma preserves_releaseAllDeviceMem : preserves P releaseAllDeviceMem.
Proof.
  apply preserves_bind; [apply preserves_gets|]. intros s.
  apply preserves_for_each, preserves_release_allocator_memory.
Qed.

Lemma preserves_recordStream ptr stream :
  preserves P (recordStream ptr stream).
Proof.
  unfold recordStream. destruct (get_context ptr =? nullptr).
  - apply preserves_ret.
  - intros w H. destruct (contexts w !! get_context ptr); [|exact I].
    by apply stable_contexts.
Qed.

(** [createAllocator] adds to [used_allocator] only what a getter has just
    returned for the accelerator device class. *)
Lemma preserves_createAllocator device :
  used_ok P (dev_type device) -> preserves P (createAllocator device).
Proof.
  intros Hused.
  apply preserves_bind; [apply preserves_deref_registry|]. intros _.
  apply preserves_bind; [apply preserves_gets|]. intros algorithm.
  apply preserves_bind; [by apply preserves_emit|]. intros _.
  apply preserves_bind; [apply preserves_registry_at|]. intros inner.
  destruct (inner !! algorithm) as [registered_entry|].
  - apply preserves_bind; [apply preserves_getDeviceIndex|]. intros i.
    apply preserves_bind; [by apply preserves_emit|]. intros _.
    apply preserves_bind; [apply preserves_call_getter|]. intros p.
    intros w H. unfold bind, emit, modify, gets, ret. simpl.
    case_bool_decide as Hdt; simpl.
    + apply (Hused (with_calls (calls w ++ [Created (dev_type device) p]) w) p);
        simpl.
      * by apply stable_calls.
      * exact Hdt.
      * apply elem_of_app. right. apply list_elem_of_singleton.
        reflexivity.
    + by apply stable_calls.
  - apply preserves_bind; [apply preserves_gets|]. intros a.
    apply preserves_throw.
Qed.

End Stable.

(** ** The per-device allocator cache *)

Lemma getDeviceIndex_eq device host_index w :
  getDeviceIndex device host_index w
  = Ok (device_index_of device host_index w) w.
Proof.
  unfold getDeviceIndex, device_index_of.
  destruct (is_cpu device); [reflexivity|].
  by destruct (has_index device).
Qed.

(** [createAllocator] leaves the statics of [getAllocator] alone. *)
Lemma createAllocator_statics device c t :
  preserves (fun w => device_count w = c /\ allocator_lookup_table w = t)
    (createAllocator device).
Proof.
  apply preserves_createAllocator.
  - by split.
  - by intros w p.
Qed.

(** [createAllocator] for a device that is not of the accelerator class
    leaves [used_allocator] alone. *)
Lemma createAllocator_host_used device t u :
  dev_type device <> t ->
  preserves (fun w => DIPU_DEVICE_TYPE w = t /\ used_allocator w = u)
    (createAllocator device).
Proof.
  intros Hne. apply preserves_createAllocator.
  - by split.
  - intros w p [Ht _] Hdt. congruence.
Qed.

Lemma preserves_lookup_or_create P device host_index table :
  stable P -> used_ok P (dev_type device) -> statics_ok P ->
  preserves P (lookup_or_create device host_index table).
Proof.
  intros HP Hused [Hcount Htable].
  apply preserves_bind; [by apply preserves_getDeviceIndex|]. intros i.
  destruct ((i <? 0) || (Z.of_nat (length table) <=? i));
    [apply preserves_undefined|].
  cbv zeta.
  destruct (table !! Z.to_nat i) as [a|]; [|apply preserves_undefined].
  destruct (a =? nullptr); [|apply preserves_ret].
  apply preserves_bind; [by apply preserves_createAllocator|]. intros created.
  apply preserves_bind; [|intros; apply preserves_ret].
  apply preserves_modify. intros w. apply Htable.
Qed.

Lemma preserves_getAllocator P device :
  stable P -> used_ok P (dev_type device) -> statics_ok P ->
  preserves P (getAllocator device).
Proof.
  intros HP Hused Hstatics. pose proof Hstatics as [Hcount Htable].
  apply preserves_bind.
  { apply preserves_bind; [apply preserves_gets|]. intros [c|].
    - apply preserves_ret.
    - apply preserves_bind; [apply preserves_gets|]. intros c.
      apply preserves_bind; [|intros; apply preserves_ret].
      apply preserves_modify. intros w. apply Hcount. }
  intros count. apply preserves_bind.
  { apply preserves_bind; [apply preserves_gets|]. intros [t|].
    - apply preserves_ret.
    - destruct (count + 1 <? 0); [apply preserves_throw|].
      apply preserves_bind; [|intros; apply preserves_ret].
      apply preserves_modify. intros w. apply Htable. }
  intros table. by apply preserves_lookup_or_create.
Qed.

(** With the statics initialised, [getAllocator] is its body. *)
Lemma getAllocator_initialised device w count t :
  device_count w = Some count ->
  allocator_lookup_table w = Some t ->
  getAllocator device w = lookup_or_create device count t w.
Proof.
  intros Hc Ht.
  unfold getAllocator, static_device_count, static_lookup_table,
    bind, gets, ret. simpl.
  rewrite Hc. simpl. by rewrite Ht.
Qed.

(** The body, slot by slot: the outcome when slot [i] holds [a']. *)
Lemma lookup_or_create_slot device count t w a' :
  0 <= device_index_of device count w ->
  t !! Z.to_nat (device_index_of device count w) = Some a' ->
  lookup_or_create device count t w
  = if a' =? nullptr then
      match createAllocator device w with
      | Ok created w' =>
          Ok created
            (with_lookup_table
               (Some (<[Z.to_nat (device_index_of device count w)
                        := created]> t)) w')
      | Throw e w' => Throw e w'
      | Undefined => Undefined
      end
    else Ok a' w.
Proof.
  intros Hi Hslot.
  unfold lookup_or_create, bind, modify, ret, undefined.
  rewrite getDeviceIndex_eq.
  set (i := device_index_of device count w) in *.
  destruct (Z.ltb_spec i 0); [lia|]. simpl.
  pose proof (lookup_lt_Some _ _ _ Hslot) as Hlen.
  destruct (Z.leb_spec (Z.of_nat (length t)) i); [lia|].
  rewrite Hslot. destruct (a' =? nullptr); [|reflexivity].
  by destruct (createAllocator device w).
Qed.

(** A body that returns has passed the range check on the index. *)
Lemma lookup_or_create_Ok_slot device count t w a w1 :
  lookup_or_create device count t w = Ok a w1 ->
  0 <= device_index_of device count w /\
  exists a', t !! Z.to_nat (device_index_of device count w) = Some a'.
Proof.
  unfold lookup_or_create, bind, undefined.
  rewrite getDeviceIndex_eq. intros H.
  set (i := device_index_of device count w) in *.
  destruct (Z.ltb_spec i 0); [done|]. simpl in H.
  destruct (Z.of_nat (length t) <=? i); [done|].
  destruct (t !! Z.to_nat i) as [a'|]; [|done]. eauto.
Qed.

Lemma lookup_or_create_Ok_memoized device count t w a w1 :
  device_count w = Some count ->
  allocator_lookup_table w = Some t ->
  lookup_or_create device count t w = Ok a w1 ->
  0 <= device_index_of device count w /\
  memoized count (Z.to_nat (device_index_of device count w)) a w1.
Proof.
  intros Hc Ht Hok.
  destruct (lookup_or_create_Ok_slot _ _ _ _ _ _ Hok) as [Hi [a' Hslot]].
  split; [exact Hi|].
  rewrite (lookup_or_create_slot device count t w a' Hi Hslot) in Hok.
  destruct (a' =? nullptr).
  - pose proof (createAllocator_statics device (Some count) (Some t) w
                  (conj Hc Ht)) as Hpres.
    destruct (createAllocator device w) as [created w'| |]; [|done..].
    injection Hok as <- <-. destruct Hpres as [Hc' Ht'].
    split; [exact Hc'|]. eexists; split; [reflexivity|].
    apply list_lookup_insert_eq. by apply lookup_lt_Some in Hslot.
  - injection Hok as <- <-. split; [exact Hc|]. eauto.
Qed.

(** What a call of [getAllocator] that returns leaves in the table. *)
Lemma getAllocator_Ok_memoized device w a w1 :
  getAllocator device w = Ok a w1 ->
  exists count,
    0 <= device_index_of device count w /\
    memoized count (Z.to_nat (device_index_of device count w)) a w1.
Proof.
  unfold getAllocator, static_device_count, static_lookup_table,
    bind, gets, ret, modify, throw. simpl.
  destruct (device_count w) as [c|] eqn:Hc; simpl.
  - destruct (allocator_lookup_table w) as [t|] eqn:Ht; simpl.
    + intros Hok. exists c.
      by apply (lookup_or_create_Ok_memoized device c t w).
    + destruct (c + 1 <? 0); [done|]. simpl. intros Hok. exists c.
      by apply (lookup_or_create_Ok_memoized device c _ _ a w1) in Hok.
  - destruct (allocator_lookup_table w) as [t|] eqn:Ht; simpl.
    + intros Hok. exists (rt_device_count w).
      by apply (lookup_or_create_Ok_memoized device _ t _ a w1) in Hok.
    + destruct (rt_device_count w + 1 <? 0); [done|]. simpl. intros Hok.
      exists (rt_device_count w).
      by apply (lookup_or_create_Ok_memoized device _ _ _ a w1) in Hok.
Qed.

(** A slot that holds an allocator keeps it through every later call of
    [getAllocator], for whatever device. *)
Lemma getAllocator_keeps_memoized count slot a device :
  a <> nullptr ->
  preserves (memoized (Mem := Mem) count slot a) (getAllocator device).
Proof.
  intros Ha w (Hc & t & Ht & Hslot).
  rewrite (getAllocator_initialised device w count t Hc Ht).
  destruct (lookup_or_create device count t w) as [a1 w1| |] eqn:Hok;
    [| |exact I].
  - destruct (lookup_or_create_Ok_slot _ _ _ _ _ _ Hok) as [Hi [a' Hslot']].
    rewrite (lookup_or_create_slot device count t w a' Hi Hslot') in Hok.
    destruct (Z.eqb_spec a' nullptr) as [Hnull|Hnn].
    + pose proof (createAllocator_statics device (Some count) (Some t) w
                    (conj Hc Ht)) as Hpres.
      destruct (createAllocator device w) as [created w'| |]; [|done..].
      injection Hok as <- <-. destruct Hpres as [Hc' Ht'].
      split; [exact Hc'|]. eexists; split; [reflexivity|].
      rewrite list_lookup_insert_ne; [exact Hslot|].
      intros <-. congruence.
    + injection Hok as <- <-. split; [exact Hc|]. eauto.
  - assert (Hpre : forall w' e, lookup_or_create device count t w = Throw e w' ->
                   device_count w' = Some count /\
                   allocator_lookup_table w' = Some t).
    { intros w' e' Hthrow. unfold lookup_or_create, bind, undefined in Hthrow.
      rewrite getDeviceIndex_eq in Hthrow.
      destruct ((_ <? 0) || _); [done|]. cbv zeta in Hthrow.
      destruct (t !! Z.to_nat (device_index_of device count w)) as [a'|];
        [|done].
      destruct (a' =? nullptr); simpl in Hthrow; [|done].
      pose proof (createAllocator_statics device (Some count) (Some t) w
                    (conj Hc Ht)) as Hcr.
      unfold modify, ret in Hthrow.
      destruct (createAllocator device w) as [created w2| |]; [done| |done].
      by injection Hthrow as <- <-. }
    destruct (Hpre _ _ Hok) as [Hc' Ht'].
    split; [exact Hc'|]. eauto.
Qed.

(** A call of [getAllocator] that finds its slot filled returns what the slot
    holds and changes nothing. *)
Lemma getAllocator_memoized_returns device w count a :
  a <> nullptr ->
  0 <= device_index_of device count w ->
  memoized count (Z.to_nat (device_index_of device count w)) a w ->
  getAllocator device w = Ok a w.
Proof.
  intros Ha Hi (Hc & t & Ht & Hslot).
  rewrite (getAllocator_initialised device w count t Hc Ht).
  rewrite (lookup_or_create_slot device count t w a Hi Hslot).
  by destruct (Z.eqb_spec a nullptr).
Qed.

(** ** Invariants of programs *)

Section Programs.

Variable P : World Mem -> Prop.
Hypothesis HP : stable P.
Hypothesis Hcalls : forall w c, P w -> P (with_calls (calls w ++ [c]) w).
Hypothesis HgetAllocator : forall device, preserves P (getAllocator device).

Lemma preserves_void {A} (m : World Mem -> Res (World Mem) A) :
  preserves P m -> preserves P (void m).
Proof. intros Hm. apply preserves_bind; [exact Hm|]. intros; apply preserves_ret. Qed.

Lemma preserves_memory_stat stat device :
  preserves P (memory_stat stat device).
Proof.
  apply preserves_bind; [apply HgetAllocator|]. intros a.
  apply preserves_bind; [by apply preserves_dynamic_cast|]. intros [c|].
  - apply preserves_bind; [by apply preserves_deref_allocator|].
    intros o. apply preserves_ret.
  - apply preserves_ret.
Qed.

Lemma preserves_allocate_through device_type size :
  preserves P (allocate_through device_type size).
Proof.
  apply preserves_bind; [apply HgetAllocator|]. intros a.
  apply preserves_bind; [by apply preserves_emit|]. intros _.
  apply preserves_bind; [by apply preserves_deref_allocator|]. intros o.
  by apply preserves_call_method.
Qed.

Lemma preserves_allocate self size : preserves P (allocate self size).
Proof.
  assert (Hemit : forall c, preserves P (emit c)).
  { intros c. apply preserves_modify. intros w. apply Hcalls. }
  apply preserves_bind; [apply preserves_gets|]. intros cur.
  apply preserves_bind; [apply preserves_gets|]. intros def.
  apply preserves_bind; [apply Hemit|]. intros _.
  apply preserves_bind; [|intros _; apply preserves_allocate_through].
  case_bool_decide; [|apply preserves_ret].
  apply preserves_bind; [apply Hemit|]. intros _.
  apply preserves_bind; [apply Hemit|]. intros _. apply Hemit.
Qed.

Lemma preserves_raw_deleter self : preserves P (raw_deleter self).
Proof.
  apply preserves_bind; [apply HgetAllocator|]. intros a.
  apply preserves_bind; [by apply preserves_deref_allocator|]. intros o.
  apply preserves_ret.
Qed.

Lemma preserves_run_op op : preserves P (run_op op).
Proof.
  destruct op; simpl.
  - by apply preserves_setAllocator.
  - apply preserves_void, HgetAllocator.
  - by apply preserves_emptyCachedMem.
  - by apply preserves_releaseAllDeviceMem.
  - apply preserves_void, preserves_memory_stat.
  - apply preserves_void, preserves_memory_stat.
  - apply preserves_void, preserves_memory_stat.
  - apply preserves_void, preserves_memory_stat.
  - by apply preserves_recordStream.
  - intros w H.
    exact (preserves_void _ (preserves_allocate _ size) w H).
  - intros w H.
    exact (preserves_void _ (preserves_raw_deleter _) w H).
  - apply preserves_modify. intros w. by apply stable_device.
  - apply preserves_modify. intros w. by apply stable_stream.
Qed.

Lemma run_preserves ops w w' : P w -> run ops w = Some w' -> P w'.
Proof.
  revert w. induction ops as [|op ops IH]; simpl; intros w H Hrun.
  - by injection Hrun as <-.
  - pose proof (preserves_run_op op w H) as Hop.
    destruct (run_op op w) as [[] w1|e w1|]; simpl in Hrun; [| |done];
      by apply (IH w1).
Qed.

End Programs.

(** C6: when a call of [getAllocator] returns an allocator instance, the
    instance is stored in the slot of the lookup table the device resolves
    to, and after any program over the interface every call of
    [getAllocator] with that device, resolving to the same slot, returns the
    same pointer and changes nothing: no registry lookup and no getter call
    is added to the log, and no allocator object is touched. *)
Theorem getAllocator_returns_memoized_instance device w a w1 ops w2 :
  getAllocator device w = Ok a w1 ->
  a <> nullptr ->
  run ops w1 = Some w2 ->
  (is_cpu device = false -> has_index device = false ->
   rt_current_device w2 = rt_current_device w) ->
  (exists count,
      memoized count (Z.to_nat (device_index_of device count w)) a w1) /\
  getAllocator device w2 = Ok a w2.
Proof.
  intros Hfirst Ha Hrun Hslot.
  destruct (getAllocator_Ok_memoized _ _ _ _ Hfirst) as (count & Hi & Hmemo).
  split; [by exists count|].
  assert (Hidx : device_index_of device count w2
                 = device_index_of device count w).
  { unfold device_index_of. destruct (is_cpu device); [reflexivity|].
    destruct (has_index device); [reflexivity|]. by apply Hslot. }
  apply (getAllocator_memoized_returns device w2 count a Ha).
  - by rewrite Hidx.
  - rewrite Hidx.
    apply (run_preserves
             (memoized count (Z.to_nat (device_index_of device count w)) a))
      with (ops := ops) (w := w1); try done.
    intros d. by apply getAllocator_keeps_memoized.
Qed.

(** The registry pointer is dereferenced unchecked: while it is null, the
    behaviour of [createAllocator] is undefined, for every device. *)
Lemma createAllocator_null_registry device w :
  gDIPURegisteredAllocatorPtr w = None ->
  createAllocator device w = Undefined.
Proof.
  intros Hnull.
  unfold createAllocator, deref_registry, bind, gets, undefined.
  by rewrite Hnull.
Qed.

(** A missing entry in a registry that exists.  Once [setAllocator] has
    created the registry, when the algorithm selected for the
    device's class has no entry under that class, [createAllocator] throws
    the "No allocator found" error and returns no allocator: it has only
    queried the registry, so no getter of any other algorithm has been
    called, nothing has entered [used_allocator], and no allocator object,
    registration or slot of the lookup table has changed.  [getAllocator],
    finding the device's slot empty, throws the same error. *)
Theorem createAllocator_without_entry_fails device w r :
  gDIPURegisteredAllocatorPtr w = Some r ->
  registered w (dev_type device) (selected_algorithm (dev_type device) w)
  = None ->
  exists w',
    createAllocator device w
    = Throw (NoAllocatorFound (dev_type device)
               (dipu_device_memcaching_algorithm w)) w' /\
    what (NoAllocatorFound (dev_type device)
            (dipu_device_memcaching_algorithm w)) = no_allocator_message /\
    calls w'
    = calls w ++ [RegistryCount (dev_type device)
                    (selected_algorithm (dev_type device) w)] /\
    used_allocator w' = used_allocator w /\
    heap w' = heap w /\
    allocator_lookup_table w' = allocator_lookup_table w /\
    (forall device_type name,
        registered w' device_type name = registered w device_type name) /\
    (forall count table,
        device_count w = Some count ->
        allocator_lookup_table w = Some table ->
        0 <= device_index_of device count w ->
        table !! Z.to_nat (device_index_of device count w) = Some nullptr ->
        getAllocator device w
        = Throw (NoAllocatorFound (dev_type device)
                   (dipu_device_memcaching_algorithm w)) w').
Proof.
  intros Hr Hnone.
  assert (Hcreate : exists w',
    createAllocator device w
    = Throw (NoAllocatorFound (dev_type device)
               (dipu_device_memcaching_algorithm w)) w' /\
    calls w' = calls w ++ [RegistryCount (dev_type device)
                    (selected_algorithm (dev_type device) w)] /\
    used_allocator w' = used_allocator w /\
    heap w' = heap w /\
    allocator_lookup_table w' = allocator_lookup_table w /\
    (forall device_type name,
        registered w' device_type name = registered w device_type name)).
  { unfold registered in Hnone. rewrite Hr in Hnone. simpl in Hnone.
    unfold createAllocator, registry_at, deref_registry, emit, bind, gets,
      modify, ret, throw. simpl.
    destruct (r !! dev_type device) as [inner|] eqn:Hdt; simpl in *.
    - repeat (progress (rewrite ?Hr, ?Hdt, ?Hnone; simpl)).
      eexists. split; [reflexivity|]. simpl.
      repeat split; try reflexivity.
    - repeat (progress (rewrite ?Hr, ?Hdt, ?lookup_empty; simpl)).
      eexists. split; [reflexivity|]. simpl.
      repeat split; try reflexivity.
      intros device_type name. unfold registered. simpl. rewrite Hr. simpl.
      destruct (decide (dev_type device = device_type)) as [<-|Hne].
      + rewrite lookup_insert_eq, Hdt. simpl. apply lookup_empty.
      + by rewrite lookup_insert_ne. }
  destruct Hcreate as (w' & Hthrow & Hcalls & Hused & Hheap & Htable & Hreg).
  exists w'. repeat (split; [done|]).
  intros count table Hc Ht Hi Hslot.
  rewrite (getAllocator_initialised device w count table Hc Ht).
  rewrite (lookup_or_create_slot device count table w nullptr Hi Hslot).
  simpl. by rewrite Hthrow.
Qed.

(** ** [used_allocator] *)

Lemma elem_of_set_insert (q p : Z) (s : list Z) :
  q ∈ set_insert p s <-> q = p \/ q ∈ s.
Proof.
  induction s as [|x s IH]; simpl.
  - rewrite list_elem_of_singleton. split; [by left|].
    intros [H|H]; [exact H|by apply elem_of_nil in H].
  - destruct (Z.ltb_spec p x).
    + apply elem_of_cons.
    + destruct (Z.eqb_spec p x) as [->|Hne].
      * rewrite elem_of_cons. tauto.
      * rewrite !elem_of_cons, IH. tauto.
Qed.

Lemma used_created_stable : stable (used_created (Mem := Mem)).
Proof.
  split; try done.
  intros w c _ H p Hp. simpl. apply elem_of_app. left. by apply H.
Qed.

Lemma used_created_getAllocator device :
  preserves (used_created (Mem := Mem)) (getAllocator device).
Proof.
  apply preserves_getAllocator.
  - apply used_created_stable.
  - intros w p H Hdt Hcreated q Hq. simpl in *.
    apply elem_of_set_insert in Hq as [->|Hq]; [by rewrite <- Hdt|by apply H].
  - by split.
Qed.

Lemma used_created_run ops w w' :
  used_created w -> run ops w = Some w' -> used_created w'.
Proof.
  apply run_preserves.
  - apply used_created_stable.
  - intros w0 c H p Hp. simpl. apply elem_of_app. left. by apply H.
  - apply used_created_getAllocator.
Qed.

(** ** The sweeps *)

Lemma touched_only_refl call s w : touched_only call s w w.
Proof.
  split; [done|]. split; [|done].
  exists []. split; [by rewrite app_nil_r|]. intros c Hc.
  by apply elem_of_nil in Hc.
Qed.

Lemma touched_only_trans call s1 s2 s w1 w2 w3 :
  s1 ⊆ s -> s2 ⊆ s ->
  touched_only call s1 w1 w2 -> touched_only call s2 w2 w3 ->
  touched_only call s w1 w3.
Proof.
  intros Hs1 Hs2 (Hh1 & (l1 & Hl1 & Hc1) & Hu1) (Hh2 & (l2 & Hl2 & Hc2) & Hu2).
  split; [|split].
  - intros q Hq. rewrite Hh2, Hh1; [done| |]; intros Hin; apply Hq; auto.
  - exists (l1 ++ l2). split; [by rewrite Hl2, Hl1, app_assoc|].
    intros c Hc. apply elem_of_app in Hc as [Hc|Hc].
    + destruct (Hc1 c Hc) as (q & -> & Hq). eauto.
    + destruct (Hc2 c Hc) as (q & -> & Hq). eauto.
  - congruence.
Qed.

Section Sweep.

(** The two lambdas have one shape: cast, log the call, call the method. *)
Variable call : Ptr -> Call.
Variable method : CacheAllocator Mem -> Mem -> Res Mem unit.
Variable body : Ptr -> World Mem -> Res (World Mem) unit.
Hypothesis body_eq : forall p,
  body p
  = (let* cached_allocator := dynamic_cast_CacheAllocator p in
     match cached_allocator with
     | Some c => emit (call p);; call_method p (method c)
     | None => ret tt
     end).

Lemma body_touches p w :
  match body p w with
  | Ok _ w' => touched_only call [p] w w'
  | Throw _ w' => touched_only call [p] w w'
  | Undefined => True
  end.
Proof.
  assert (Hcall : forall (m : Mem) (o : AllocatorObject Mem),
    touched_only call [p] w
      (with_heap (<[p := with_mem m o]> (heap w))
         (with_calls (calls w ++ [call p]) w))).
  { intros m o. split; [|split]; simpl.
    - intros q Hq. apply lookup_insert_ne. intros ->. apply Hq.
      by apply list_elem_of_singleton.
    - exists [call p]. split; [done|]. intros c Hc.
      apply list_elem_of_singleton in Hc as ->. exists p.
      split; [done|]. by apply list_elem_of_singleton.
    - done. }
  rewrite body_eq.
  unfold dynamic_cast_CacheAllocator, call_method, deref_allocator, emit,
    bind, modify, ret. simpl.
  destruct (p =? nullptr) eqn:Hp; simpl; [apply touched_only_refl|].
  destruct (heap w !! p) as [o|]; simpl; [|exact I].
  destruct (obj_cache o) as [c|]; simpl; [|apply touched_only_refl].
  destruct (heap w !! p) as [o'|]; simpl; [|exact I].
  destruct (method c (obj_mem o')); try exact I; apply Hcall.
Qed.

(** A sweep touches the allocators of the set it iterates, and no other. *)
Lemma for_each_touches s w :
  match for_each body s w with
  | Ok _ w' => touched_only call s w w'
  | Throw _ w' => touched_only call s w w'
  | Undefined => True
  end.
Proof.
  revert w. induction s as [|p s IH]; intros w; simpl.
  - apply touched_only_refl.
  - unfold bind. pose proof (body_touches p w) as Hp.
    destruct (body p w) as [[] w1|e w1|]; [| |exact I].
    + specialize (IH w1).
      destruct (for_each body s w1) as [[] w2|e w2|]; [| |exact I];
        (eapply touched_only_trans; [| |exact Hp|exact IH]);
        intros q Hq; rewrite elem_of_cons; auto;
        left; by apply list_elem_of_singleton in Hq.
    + eapply touched_only_trans; [| |exact Hp|apply (touched_only_refl call [])];
        intros q Hq; [|by apply elem_of_nil in Hq].
      rewrite elem_of_cons. left. by apply list_elem_of_singleton in Hq.
Qed.



End Sweep.


(** C9: from a state in which every member of [used_allocator] was returned
    by a getter called for the accelerator device class (at process start
    the set is empty), every program over the interface leads to such a
    state.  A pointer no getter returned for that class is therefore not in
    the set; [getAllocator] for a device of another class, host memory
    included, leaves the set as it is, whatever its outcome; and each sweep
    calls the allocators of the set and touches no other allocator
    object. *)
Theorem used_allocator_holds_accelerator_allocators_only w ops w' :
  used_created w ->
  run ops w = Some w' ->
  (forall p, p ∈ used_allocator w' ->
             Created (DIPU_DEVICE_TYPE w') p ∈ calls w') /\
  (forall p, Created (DIPU_DEVICE_TYPE w') p ∉ calls w' ->
             p ∉ used_allocator w') /\
  (forall device w'',
      dev_type device <> DIPU_DEVICE_TYPE w' ->
      final_state (getAllocator device w') = Some w'' ->
      used_allocator w'' = used_allocator w') /\
  (forall w'',
      final_state (emptyCachedMem w') = Some w'' ->
      touched_only EmptyCache (used_allocator w') w' w'') /\
  (forall w'',
      final_state (releaseAllDeviceMem w') = Some w'' ->
      touched_only ReleaseAllMemory (used_allocator w') w' w'').
Proof.
  intros Hinit Hrun.
  pose proof (used_created_run ops w w' Hinit Hrun) as Hinv.
  split; [exact Hinv|]. split; [intros p Hp Hin; by apply Hp, Hinv|].
  split; [|split].
  - intros device w'' Hne Hfinal.
    assert (Hpres : preserves
              (fun w0 => DIPU_DEVICE_TYPE w0 = DIPU_DEVICE_TYPE w' /\
                         used_allocator w0 = used_allocator w')
              (getAllocator device)).
    { apply preserves_getAllocator.
      - by split.
      - intros w0 p [Ht _] Hdt. congruence.
      - by split. }
    specialize (Hpres w' (conj eq_refl eq_refl)).
    destruct (getAllocator device w') as [a w1|e w1|]; simpl in Hfinal;
      [| |done]; injection Hfinal as <-; apply Hpres.
  - intros w'' Hfinal.
    pose proof (for_each_touches EmptyCache empty_cache empty_allocator_cache
                  (fun _ => eq_refl) (used_allocator w') w') as Ht.
    unfold emptyCachedMem, bind, gets in Hfinal.
    destruct (for_each empty_allocator_cache (used_allocator w') w')
      as [[] w1|e w1|]; simpl in Hfinal; [| |done];
      by injection Hfinal as <-.
  - intros w'' Hfinal.
    pose proof (for_each_touches ReleaseAllMemory release_all_memory
                  release_allocator_memory (fun _ => eq_refl)
                  (used_allocator w') w') as Ht.
    unfold releaseAllDeviceMem, bind, gets in Hfinal.
    destruct (for_each release_allocator_memory (used_allocator w') w')
      as [[] w1|e w1|]; simpl in Hfinal; [| |done];
      by injection Hfinal as <-.
Qed.

(** ** [recordStream] *)

(** C10: on a data pointer whose context is null, [recordStream] returns
    normally and leaves the whole state as it was, for every stream; so does
    the overload that takes a tensor with such a data pointer. *)
Theorem recordStream_null_context_is_noop ptr stream w :
  get_context ptr = nullptr ->
  recordStream ptr stream w = Ok tt w /\
  (forall tensor,
      storage_data_ptr tensor = ptr ->
      recordStream_tensor tensor stream w = Ok tt w).
Proof.
  intros Hnull.
  assert (H : recordStream ptr stream w = Ok tt w).
  { unfold recordStream. by rewrite Hnull. }
  split; [exact H|]. intros tensor Ht.
  unfold recordStream_tensor. by rewrite Ht.
Qed.

(** ** The stream-ordering proxy *)

(** From [w0] on, the log has gained no stream synchronisation. *)
Lemma no_sync_since_stable (w0 : World Mem) :
  stable (fun w' => exists rest,
            calls w' = calls w0 ++ rest /\
            Forall (fun c => is_sync c = false) rest).
Proof.
  split; try done.
  intros w c Hc (rest & Hrest & Hall). exists (rest ++ [c]). simpl.
  split; [by rewrite Hrest, app_assoc|].
  apply Forall_app. split; [exact Hall|]. by apply Forall_singleton.
Qed.

Lemma allocate_through_no_sync device_type size (w0 : World Mem) :
  preserves (fun w' => exists rest,
               calls w' = calls w0 ++ rest /\
               Forall (fun c => is_sync c = false) rest)
    (allocate_through device_type size).
Proof.
  apply preserves_allocate_through; [apply no_sync_since_stable|].
  intros device. apply preserves_getAllocator.
  - apply no_sync_since_stable.
  - by intros w p.
  - by split.
Qed.

(** C1: [allocate] first orders the streams, then delegates.  When the
    current stream differs from the default stream it records an event on
    the default stream and makes the current stream wait on it, and only
    then runs [getAllocator(device_type_)->allocate(size)]; when the two
    streams are equal it runs the delegation with no event recorded and no
    wait.  The delegation itself adds no record and no wait to the log.
    It asks [getAllocator] for the allocator of the proxy's device type and
    runs the [allocate] method of that allocator with the size given: the
    call is logged, the method works on the data of that allocator object,
    and what it returns, or the error it throws, is the outcome of the
    proxy's [allocate]; an error of [getAllocator] is passed on, with the
    state as [getAllocator] left it.  Conversely, what [allocate] returns is what the
    [allocate] method of the allocator that [getAllocator] gave for the
    proxy's device type returned. *)
Theorem proxy_allocate_orders_streams_then_delegates self size w :
  (rt_current_stream w <> rt_default_stream w ->
   allocate self size w
   = allocate_through (device_type_ self) size
       (with_calls
          (calls w ++ [Cout "c10::DataPtr allocate";
                       EventRecord (rt_default_stream w);
                       EventWait (rt_current_stream w);
                       Cout "currentStream wait "]) w)) /\
  (rt_current_stream w = rt_default_stream w ->
   allocate self size w
   = allocate_through (device_type_ self) size
       (with_calls (calls w ++ [Cout "c10::DataPtr allocate"]) w)) /\
  (forall w0 w',
      final_state (allocate_through (device_type_ self) size w0) = Some w' ->
      exists rest,
        calls w' = calls w0 ++ rest /\
        Forall (fun c => is_sync c = false) rest) /\
  (forall w0 data w',
      allocate_through (device_type_ self) size w0 = Ok data w' ->
      exists a w1 o m,
        getAllocator (Device_of_type (device_type_ self)) w0 = Ok a w1 /\
        a <> nullptr /\
        heap w1 !! a = Some o /\
        obj_allocate o size (obj_mem o) = Ok data m /\
        w' = with_heap (<[a := with_mem m o]> (heap w1))
               (with_calls (calls w1 ++ [Allocate a size]) w1)) /\
  (forall w0 a w1 o,
      getAllocator (Device_of_type (device_type_ self)) w0 = Ok a w1 ->
      a <> nullptr ->
      heap w1 !! a = Some o ->
      (forall data m,
          obj_allocate o size (obj_mem o) = Ok data m ->
          allocate_through (device_type_ self) size w0
          = Ok data
              (with_heap (<[a := with_mem m o]> (heap w1))
                 (with_calls (calls w1 ++ [Allocate a size]) w1))) /\
      (forall e m,
          obj_allocate o size (obj_mem o) = Throw e m ->
          allocate_through (device_type_ self) size w0
          = Throw e
              (with_heap (<[a := with_mem m o]> (heap w1))
                 (with_calls (calls w1 ++ [Allocate a size]) w1)))) /\
  (forall w0 e w1,
      getAllocator (Device_of_type (device_type_ self)) w0 = Throw e w1 ->
      allocate_through (device_type_ self) size w0 = Throw e w1).
Proof.
  split; [|split; [|split; [|split; [|split]]]].
  - intros Hne. unfold allocate, bind, gets, emit, modify. simpl.
    rewrite bool_decide_eq_true_2 by exact Hne. simpl.
    by rewrite <- !app_assoc.
  - intros Heq. unfold allocate, bind, gets, emit, modify. simpl.
    rewrite bool_decide_eq_false_2 by (intros Hne; by apply Hne). reflexivity.
  - intros w0 w' Hfinal.
    pose proof (allocate_through_no_sync (device_type_ self) size w0 w0) as H.
    destruct (allocate_through (device_type_ self) size w0) as [d w1|e w1|];
      simpl in Hfinal; [| |done]; injection Hfinal as <-; apply H;
      exists []; by rewrite app_nil_r.
  - intros w0 data w'.
    unfold allocate_through, getAllocator_of_type, call_method,
      deref_allocator, emit, bind, modify. simpl.
    destruct (getAllocator (Device_of_type (device_type_ self)) w0)
      as [a w1|e w1|]; [|done..].
    destruct (Z.eqb_spec a nullptr) as [Hnull|Hnn]; simpl; [done|].
    destruct (heap w1 !! a) as [o|] eqn:Ho; simpl; [|done].
    destruct (Z.eqb_spec a nullptr) as [Hnull|_]; simpl; [done|].
    rewrite Ho. simpl.
    destruct (obj_allocate o size (obj_mem o)) as [d m|e m|] eqn:Hm; [|done..].
    intros [= <- <-]. by exists a, w1, o, m.
  - intros w0 a w1 o Hget Hnn Ho.
    unfold allocate_through, getAllocator_of_type, call_method,
      deref_allocator, emit, bind, modify. simpl.
    rewrite Hget. simpl.
    destruct (Z.eqb_spec a nullptr) as [Hnull|_]; simpl; [done|].
    rewrite Ho. simpl.
    destruct (Z.eqb_spec a nullptr) as [Hnull|_]; simpl; [done|].
    rewrite Ho. simpl.
    split; intros r m Hm; by rewrite Hm.
  - intros w0 e w1 Hget.
    unfold allocate_through, getAllocator_of_type, bind.
    by rewrite Hget.
Qed.

End Properties.

(** * The caching algorithm: reuse waits for the recorded streams *)

Module CachingAllocatorProperties.

Import CachingAllocatorModel.

Lemma fully_retired_spec st b :
  fully_retired st b = true <->
  forall s, s ∈ streams b ->
    (default 0%nat (pending b !! s) <= retired_by st s)%nat.
Proof.
  unfold fully_retired. rewrite forallb_forall. split.
  - intros H s Hs. apply elem_of_elements, list_elem_of_In in Hs.
    specialize (H _ Hs). unfold query in H. by apply Nat.leb_le in H.
  - intros H s Hin. unfold query. apply Nat.leb_le, H.
    by apply elem_of_elements, list_elem_of_In.
Qed.

(** The lazy check leaves a block that is in use as it is, and a deferred
    block either as it is or, every recorded stream being past its recording
    point, in the free pool. *)
Lemma reclaim_block_InUse st b : status b = InUse -> reclaim_block st b = b.
Proof. intros Hb. unfold reclaim_block. by rewrite Hb. Qed.

Lemma reclaim_block_Deferred st b :
  status b = Deferred ->
  reclaim_block st b = b \/
  (status (reclaim_block st b) = Free /\ fully_retired st b = true).
Proof.
  intros Hb. unfold reclaim_block. rewrite Hb.
  destruct (fully_retired st b); [right|left]; done.
Qed.

Lemma free_takes_recording_points a s st b :
  blocks st !! a = Some b -> status b = InUse -> s ∈ streams b ->
  exists b',
    blocks (free a st) !! a = Some b' /\ status b' = Deferred /\
    s ∈ streams b' /\ pending b' !! s = Some (enqueued_on st s).
Proof.
  intros Ha Hb Hs. unfold free. rewrite Ha, Hb. simpl.
  eexists. split; [apply lookup_insert_eq|]. simpl.
  split; [done|]. split; [done|].
  apply lookup_set_to_map; [by intros ?? _ _ [=]|].
  by exists s.
Qed.

Lemma enqueued_on_retire s s' st :
  enqueued_on (retire s st) s' = enqueued_on st s'.
Proof.
  unfold retire. by destruct (retired_by st s <? enqueued_on st s)%nat.
Qed.

Lemma retired_by_retire s s' st :
  (retired_by st s' <= retired_by (retire s st) s')%nat.
Proof.
  unfold retire. destruct (retired_by st s <? enqueued_on st s)%nat; [|done].
  unfold retired_by at 2. simpl.
  destruct (decide (s = s')) as [<-|Hne].
  - rewrite lookup_insert_eq. simpl. lia.
  - rewrite lookup_insert_ne by done. done.
Qed.

Lemma blocks_retire s st : blocks (retire s st) = blocks st.
Proof.
  unfold retire. by destruct (retired_by st s <? enqueued_on st s)%nat.
Qed.

Lemma enqueued_on_enqueue s s' st :
  (enqueued_on st s' <= enqueued_on (enqueue s st) s')%nat.
Proof.
  unfold enqueue, enqueued_on at 2. simpl.
  destruct (decide (s = s')) as [<-|Hne].
  - rewrite lookup_insert_eq. simpl. lia.
  - rewrite lookup_insert_ne by done. done.
Qed.

Lemma clock_free a st :
  enqueued (free a st) = enqueued st /\ retired (free a st) = retired st.
Proof.
  unfold free. destruct (blocks st !! a) as [b|]; [|done].
  by destruct (status b).
Qed.

Lemma clock_recordStream a s st :
  enqueued (recordStream a s st) = enqueued st /\
  retired (recordStream a s st) = retired st.
Proof.
  unfold recordStream. destruct (blocks st !! a) as [b|]; [|done].
  by destruct (status b).
Qed.

Section Policy.

Variable policy : Z -> gmap Z Block -> option Z.

(** What [allocate] does to the blocks: after the lazy check, the block
    handed out is put at its address, in use; the address is one of the free
    pool after the check, or a new one. *)
Lemma allocate_blocks size st :
  enqueued (allocate policy size st).2 = enqueued st /\
  retired (allocate policy size st).2 = retired st /\
  exists b',
    blocks (allocate policy size st).2
    = <[(allocate policy size st).1 := b']> (reclaim_block st <$> blocks st) /\
    status b' = InUse /\
    ((exists b, blocks st !! (allocate policy size st).1 = Some b /\
                status (reclaim_block st b) = Free) \/
     blocks st !! (allocate policy size st).1 = None).
Proof.
  unfold allocate.
  destruct (policy size (blocks (reclaim st)) ≫= _) as [[a b]|] eqn:Hpick;
    simpl; (split; [done|]); (split; [done|]); eexists;
    (split; [reflexivity|]); (split; [done|]).
  - left.
    destruct (policy size (blocks (reclaim st))) as [a1|]; simpl in Hpick;
      [|done].
    rewrite lookup_fmap in Hpick.
    destruct (blocks st !! a1) as [b1|] eqn:Hb1; simpl in Hpick; [|done].
    destruct (bool_decide (status (reclaim_block st b1) = Free)) eqn:Hfree;
      simpl in Hpick; [|done].
    destruct (size <=? block_size (reclaim_block st b1)); [|done].
    injection Hpick as <- <-. exists b1. split; [done|].
    by apply bool_decide_eq_true_1 in Hfree.
  - right. apply not_elem_of_dom.
    rewrite <- (dom_fmap_L (reclaim_block st) (blocks st)).
    apply is_fresh.
Qed.

Lemma enqueued_on_step l s st :
  (enqueued_on st s <= enqueued_on (step policy l st) s)%nat.
Proof.
  destruct l as [size|a|a s'|s'|s']; simpl.
  - unfold enqueued_on.
    by rewrite (proj1 (allocate_blocks size st)).
  - unfold enqueued_on. by rewrite (proj1 (clock_free a st)).
  - unfold enqueued_on. by rewrite (proj1 (clock_recordStream a s' st)).
  - apply enqueued_on_enqueue.
  - by rewrite enqueued_on_retire.
Qed.

Lemma enqueued_on_steps ls s st :
  (enqueued_on st s <= enqueued_on (steps policy ls st) s)%nat.
Proof.
  unfold steps. revert st. induction ls as [|l ls IH]; intros st; simpl.
  - done.
  - etrans; [apply (enqueued_on_step l)|apply IH].
Qed.

Lemma retired_by_step l s st :
  (retired_by st s <= retired_by (step policy l st) s)%nat.
Proof.
  destruct l as [size|a|a s'|s'|s']; simpl.
  - unfold retired_by.
    by rewrite (proj1 (proj2 (allocate_blocks size st))).
  - unfold retired_by. by rewrite (proj2 (clock_free a st)).
  - unfold retired_by. by rewrite (proj2 (clock_recordStream a s' st)).
  - done.
  - apply retired_by_retire.
Qed.

(** ** A live allocation keeps its recorded streams until it is freed *)

Lemma recorded_live_recordStream a s st :
  (exists b, blocks st !! a = Some b /\ status b = InUse) ->
  recorded_live a s (recordStream a s st).
Proof.
  intros (b & Ha & Hb). unfold recordStream. rewrite Ha, Hb.
  eexists. split; [apply lookup_insert_eq|]. simpl.
  split; [done|]. set_solver.
Qed.

Lemma recorded_live_step a s l st :
  l <> DoFree a ->
  recorded_live a s st -> recorded_live a s (step policy l st).
Proof.
  intros Hl (b & Ha & Hb & Hs).
  destruct l as [size|a'|a' s'|s'|s']; simpl.
  - destruct (allocate_blocks size st) as (_ & _ & b' & Hblocks & _ & Hwhere).
    exists b. rewrite Hblocks. split; [|done].
    rewrite lookup_insert_ne.
    + by rewrite lookup_fmap, Ha; simpl; rewrite reclaim_block_InUse.
    + intros Heq. rewrite Heq in Hwhere.
      destruct Hwhere as [(b0 & Hb0 & Hfree)|Hnone]; [|congruence].
      assert (b0 = b) as -> by congruence.
      rewrite reclaim_block_InUse in Hfree by done. congruence.
  - assert (Hne : a' <> a) by congruence.
    exists b. split; [|done]. unfold free.
    destruct (blocks st !! a') as [b0|]; [|done].
    destruct (status b0); try done.
    simpl. by rewrite lookup_insert_ne.
  - unfold recordStream.
    destruct (blocks st !! a') as [b0|] eqn:Hb0; [|by exists b].
    destruct (status b0) eqn:Hs0; try by exists b.
    destruct (decide (a' = a)) as [->|Hne].
    + assert (b0 = b) as -> by congruence.
      eexists. split; [apply lookup_insert_eq|]. simpl.
      split; [done|]. set_solver.
    + exists b. simpl. by rewrite lookup_insert_ne.
  - by exists b.
  - exists b. by rewrite blocks_retire.
Qed.

Lemma recorded_live_steps a s ls st :
  Forall (fun l => l <> DoFree a) ls ->
  recorded_live a s st -> recorded_live a s (steps policy ls st).
Proof.
  unfold steps. revert st.
  induction ls as [|l ls IH]; intros st Hls Hlive; simpl; [done|].
  apply Forall_cons in Hls as [Hl Hls].
  by apply IH, recorded_live_step.
Qed.

(** ** A freed block waits for its recorded streams *)

Lemma retired_or_waiting_free a s st :
  recorded_live a s st ->
  retired_or_waiting a s (enqueued_on st s) (free a st).
Proof.
  intros (b & Ha & Hb & Hs). right.
  by apply (free_takes_recording_points a s st b).
Qed.

Lemma retired_or_waiting_step a s point l st :
  retired_or_waiting a s point st ->
  retired_or_waiting a s point (step policy l st).
Proof.
  intros [Hdone|(b & Ha & Hb & Hs & Hpoint)].
  { left. etrans; [exact Hdone|apply retired_by_step]. }
  destruct l as [size|a'|a' s'|s'|s']; simpl.
  - destruct (allocate_blocks size st)
      as (_ & Hretired & b' & Hblocks & _ & Hwhere).
    assert (Hsame : retired_by (allocate policy size st).2 s
                    = retired_by st s)
      by (unfold retired_by; by rewrite Hretired).
    destruct (reclaim_block_Deferred st b Hb) as [Hkept|[_ Hfull]].
    + destruct (decide ((allocate policy size st).1 = a)) as [Heq|Hne].
      * rewrite Heq in Hwhere.
        destruct Hwhere as [(b0 & Hb0 & Hfree)|Hnone]; [|congruence].
        assert (b0 = b) as -> by congruence.
        rewrite Hkept in Hfree. congruence.
      * right. exists b. rewrite Hblocks, lookup_insert_ne by done.
        by rewrite lookup_fmap, Ha; simpl; rewrite Hkept.
    + left. rewrite Hsame.
      pose proof (proj1 (fully_retired_spec st b) Hfull s Hs) as Hle.
      by rewrite Hpoint in Hle.
  - right. exists b. split; [|done]. unfold free.
    destruct (blocks st !! a') as [b0|] eqn:Hb0; [|done].
    destruct (status b0) eqn:Hs0; try done.
    simpl. rewrite lookup_insert_ne; [done|].
    intros ->. congruence.
  - right. exists b. split; [|done]. unfold recordStream.
    destruct (blocks st !! a') as [b0|] eqn:Hb0; [|done].
    destruct (status b0) eqn:Hs0; try done.
    simpl. rewrite lookup_insert_ne; [done|].
    intros ->. congruence.
  - right. by exists b.
  - right. exists b. by rewrite blocks_retire.
Qed.

Lemma retired_or_waiting_steps a s point ls st :
  retired_or_waiting a s point st ->
  retired_or_waiting a s point (steps policy ls st).
Proof.
  unfold steps. revert st.
  induction ls as [|l ls IH]; intros st Hst; simpl; [done|].
  by apply IH, retired_or_waiting_step.
Qed.

(** A block that waits is handed out only when the wait is over. *)
Lemma retired_or_waiting_allocate a s point size st :
  retired_or_waiting a s point st ->
  (allocate policy size st).1 = a ->
  (point <= retired_by st s)%nat.
Proof.
  intros [Hdone|(b & Ha & Hb & Hs & Hpoint)] Hout; [exact Hdone|].
  destruct (allocate_blocks size st) as (_ & _ & b' & _ & _ & Hwhere).
  rewrite Hout in Hwhere.
  destruct Hwhere as [(b0 & Hb0 & Hfree)|Hnone]; [|congruence].
  assert (b0 = b) as -> by congruence.
  destruct (reclaim_block_Deferred st b Hb) as [Hkept|[_ Hfull]].
  - rewrite Hkept in Hfree. congruence.
  - pose proof (proj1 (fully_retired_spec st b) Hfull s Hs) as Hle.
    by rewrite Hpoint in Hle.
Qed.

(** C2: take any sequence of allocate, free and recordStream steps,
    interleaved with the streams enqueuing and retiring work, in which a
    stream [s] is in the recorded-streams set of a live allocation [a], the
    allocation is later freed, and later still [allocate] hands the block
    at [a] out again.  Then at that moment [s] has retired all the work
    that was enqueued on it before the block was freed, which includes all
    the work enqueued on it when it was found in the set.  A stream is in
    the set of a live allocation from the [recordStream] call on.  The
    recording point of a recorded stream is the [free] of the block; the
    theorem holds for every reuse policy, and from the history alone: it
    does not go by what the block still carries when it is handed out. *)
Theorem freed_block_reused_only_after_recorded_streams_retired
    before during after a s size st1 st2 st3 st' :
  steps policy before initial = st1 ->
  recorded_live a s st1 ->
  Forall (fun l => l <> DoFree a) during ->
  steps policy during st1 = st2 ->
  steps policy after (free a st2) = st3 ->
  allocate policy size st3 = (a, st') ->
  (enqueued_on st1 s <= enqueued_on st2 s)%nat /\
  (enqueued_on st2 s <= retired_by st3 s)%nat /\
  (forall st b,
      blocks st !! a = Some b -> status b = InUse ->
      recorded_live a s (recordStream a s st) /\
      enqueued_on (recordStream a s st) s = enqueued_on st s).
Proof.
  intros _ Hlive Hduring <- <- Hout. split; [|split].
  - apply enqueued_on_steps.
  - apply (retired_or_waiting_allocate a s _ size).
    + apply retired_or_waiting_steps, retired_or_waiting_free.
      by apply recorded_live_steps.
    + by rewrite Hout.
  - intros st b Ha Hb. split.
    + apply recorded_live_recordStream. by exists b.
    + unfold enqueued_on. by rewrite (proj1 (clock_recordStream a s st)).
Qed.

End Policy.

End CachingAllocatorProperties.

(** * Further properties of the allocator front end *)

Section RegistryInvariants.

Context {Mem : Type}.
Implicit Types (w : World Mem) (g : Getter Mem).

(** ** What a registration does to the registry *)

(** A registration touches nothing but the registry. *)
Lemma setAllocator_only_registry w name device_type g priority w' :
  final_state (setAllocator name device_type g priority w) = Some w' ->
  w' = with_registry (gDIPURegisteredAllocatorPtr w') w.
Proof.
  unfold setAllocator, registry_assign, registry_at, deref_registry,
    bind, gets, modify, ret, throw. simpl.
  destruct (gDIPURegisteredAllocatorPtr w) as [r|] eqn:Hp; simpl;
    rewrite ?Hp; simpl.
  - destruct (r !! device_type) as [inner|] eqn:Hr; simpl.
    + destruct (inner !! name) as [old|]; simpl.
      * destruct (get_1 old <? priority); simpl;
          repeat (progress (rewrite ?Hp, ?Hr; simpl));
          intros [= <-]; simpl; [reflexivity|].
        by destruct w.
      * repeat (progress (rewrite ?Hp, ?Hr; simpl)). by intros [= <-].
    + repeat (progress (rewrite ?lookup_empty, ?lookup_insert_eq; simpl)).
      by intros [= <-].
  - repeat (progress (rewrite ?lookup_empty, ?lookup_insert_eq; simpl)).
    by intros [= <-].
Qed.

(** A registration leaves the entries of every other name, and of every
    other device type, as they were, whether it returns or throws. *)
Lemma setAllocator_other_entries w name device_type g priority w'
    device_type' name' :
  final_state (setAllocator name device_type g priority w) = Some w' ->
  (device_type', name') <> (device_type, name) ->
  registered w' device_type' name' = registered w device_type' name'.
Proof.
  intros Hfinal Hne.
  assert (Hins : forall (r : gmap DeviceType (gmap string (Entry Mem)))
                        inner x,
             default ∅ (r !! device_type) = inner ->
             (<[device_type := <[name := x]> inner]> r) !! device_type'
               ≫= (fun m => m !! name')
             = r !! device_type' ≫= (fun m => m !! name')).
  { intros r inner x Hinner.
    destruct (decide (device_type = device_type')) as [<-|Hdt].
    - rewrite lookup_insert_eq. simpl.
      rewrite lookup_insert_ne by (intros <-; by apply Hne).
      subst inner. destruct (r !! device_type); simpl; [done|].
      apply lookup_empty.
    - by rewrite lookup_insert_ne. }
  revert Hfinal.
  unfold setAllocator, registry_assign, registry_at, deref_registry,
    bind, gets, modify, ret, throw, registered. simpl.
  destruct (gDIPURegisteredAllocatorPtr w) as [r|] eqn:Hp; simpl;
    rewrite ?Hp; simpl.
  - destruct (r !! device_type) as [inner|] eqn:Hr; simpl.
    + destruct (inner !! name) as [old|]; simpl.
      * destruct (get_1 old <? priority); simpl;
          repeat (progress (rewrite ?Hp, ?Hr; simpl));
          intros [= <-]; simpl; [|by rewrite Hp].
        apply Hins. by rewrite Hr.
      * repeat (progress (rewrite ?Hp, ?Hr; simpl)). intros [= <-]. simpl.
        apply Hins. by rewrite Hr.
    + repeat (progress (rewrite ?lookup_empty, ?lookup_insert_eq; simpl)).
      intros [= <-]. simpl. rewrite insert_insert_eq.
      apply Hins. by rewrite Hr.
  - repeat (progress (rewrite ?lookup_empty, ?lookup_insert_eq; simpl)).
    intros [= <-]. simpl. rewrite insert_insert_eq.
    apply Hins. by rewrite lookup_empty.
Qed.

(** X1: a name that has no entry yet under a device type can always be
    registered there: the call returns, stores the getter and the priority,
    touches nothing but the registry, and leaves the entries of every other
    name and of every other device type as they were. *)
Theorem setAllocator_new_name_never_conflicts
    w name device_type g priority :
  registered w device_type name = None ->
  exists w',
    setAllocator name device_type g priority w = Ok tt w' /\
    registered w' device_type name = Some (make_tuple g priority) /\
    w' = with_registry (gDIPURegisteredAllocatorPtr w') w /\
    forall device_type' name',
      (device_type', name') <> (device_type, name) ->
      registered w' device_type' name' = registered w device_type' name'.
Proof.
  intros Hnone.
  destruct (setAllocator_stores w name device_type g priority)
    as (w' & Hok & Hreg).
  { intros e He. congruence. }
  exists w'. split; [exact Hok|]. split; [exact Hreg|]. split.
  - apply (setAllocator_only_registry w name device_type g priority).
    by rewrite Hok.
  - intros device_type' name'.
    apply (setAllocator_other_entries w name device_type g priority).
    by rewrite Hok.
Qed.

(** ** Invariants that look at the registry only *)

(** Every program keeps what every call of the interface keeps. *)
Lemma run_invariant (P : World Mem -> Prop) ops w w' :
  (forall op, preserves P (run_op op)) ->
  P w -> run ops w = Some w' -> P w'.
Proof.
  intros Hop. revert w. induction ops as [|op ops IH]; simpl; intros w H Hrun.
  - by injection Hrun as <-.
  - pose proof (Hop op w H) as Hstep.
    destruct (run_op op w) as [[] w1|e w1|]; simpl in Hrun; [| |done];
      by apply (IH w1).
Qed.

Section RegistryOnly.

(** A property of the registry that survives [std::map::operator[]] putting
    an empty inner map under a device type that has none. *)
Variable Q : option (gmap DeviceType (gmap string (Entry Mem))) -> Prop.
Hypothesis Q_index : forall r device_type,
  r !! device_type = None -> Q (Some r) -> Q (Some (<[device_type := ∅]> r)).
Hypothesis Q_setAllocator : forall name device_type g priority,
  preserves (fun w => Q (gDIPURegisteredAllocatorPtr w))
    (setAllocator name device_type g priority).

Local Abbreviation P := (fun w : World Mem => Q (gDIPURegisteredAllocatorPtr w)).

Lemma registry_kept_emit c : preserves P (emit c).
Proof. apply preserves_modify. by intros w H. Qed.

Lemma registry_kept_registry_at device_type :
  preserves P (registry_at device_type).
Proof.
  intros w H. unfold registry_at, deref_registry, bind, modify, ret.
  destruct (gDIPURegisteredAllocatorPtr w) as [r|] eqn:Hr; [|exact I].
  destruct (r !! device_type) as [inner|] eqn:Hdt; simpl.
  - by rewrite Hr.
  - by apply Q_index.
Qed.

Lemma registry_kept_call_getter g device_index :
  preserves P (call_getter g device_index).
Proof.
  intros w H. unfold call_getter.
  by destruct (g device_index (heap w)).
Qed.

Lemma registry_kept_call_method {A} p (method : Mem -> Res Mem A) :
  preserves P (call_method p method).
Proof.
  apply preserves_bind; [apply preserves_deref_allocator|]. intros o w H.
  by destruct (method (obj_mem o)).
Qed.

Lemma registry_kept_createAllocator device :
  preserves P (createAllocator device).
Proof.
  apply preserves_bind; [apply preserves_deref_registry|]. intros _.
  apply preserves_bind; [apply preserves_gets|]. intros algorithm.
  apply preserves_bind; [apply registry_kept_emit|]. intros _.
  apply preserves_bind; [apply registry_kept_registry_at|]. intros inner.
  destruct (inner !! algorithm) as [registered_entry|].
  - apply preserves_bind; [apply preserves_getDeviceIndex|]. intros i.
    apply preserves_bind; [apply registry_kept_emit|]. intros _.
    apply preserves_bind; [apply registry_kept_call_getter|]. intros p.
    apply preserves_bind; [apply registry_kept_emit|]. intros _.
    apply preserves_bind; [|intros; apply preserves_ret].
    apply preserves_bind; [apply preserves_gets|]. intros dipu.
    case_bool_decide as Hd; [|apply preserves_ret].
    apply preserves_modify. by intros w H.
  - apply preserves_bind; [apply preserves_gets|]. intros a.
    apply preserves_throw.
Qed.

Lemma registry_kept_getAllocator device :
  preserves P (getAllocator device).
Proof.
  apply preserves_bind.
  { apply preserves_bind; [apply preserves_gets|]. intros [c|].
    - apply preserves_ret.
    - apply preserves_bind; [apply preserves_gets|]. intros c.
      apply preserves_bind; [|intros; apply preserves_ret].
      apply preserves_modify. by intros w H. }
  intros count. apply preserves_bind.
  { apply preserves_bind; [apply preserves_gets|]. intros [t|].
    - apply preserves_ret.
    - destruct (count + 1 <? 0); [apply preserves_throw|].
      apply preserves_bind; [|intros; apply preserves_ret].
      apply preserves_modify. by intros w H. }
  intros table.
  apply preserves_bind; [apply preserves_getDeviceIndex|]. intros i.
  destruct ((i <? 0) || (Z.of_nat (length table) <=? i));
    [apply preserves_undefined|].
  cbv zeta.
  destruct (table !! Z.to_nat i) as [a|]; [|apply preserves_undefined].
  destruct (a =? nullptr); [|apply preserves_ret].
  apply preserves_bind; [apply registry_kept_createAllocator|].
  intros created.
  apply preserves_bind; [|intros; apply preserves_ret].
  apply preserves_modify. by intros w H.
Qed.

Lemma registry_kept_sweep_body (call : Z -> Call)
    (method : CacheAllocator Mem -> Mem -> Res Mem unit) p :
  preserves P
    (let* cached_allocator := dynamic_cast_CacheAllocator p in
     match cached_allocator with
     | Some c => emit (call p);; call_method p (method c)
     | None => ret tt
     end).
Proof.
  apply preserves_bind; [apply preserves_dynamic_cast|]. intros [c|].
  - apply preserves_bind; [apply registry_kept_emit|].
    intros _. apply registry_kept_call_method.
  - apply preserves_ret.
Qed.

Lemma registry_kept_allocate self size : preserves P (allocate self size).
Proof.
  apply preserves_bind; [apply preserves_gets|]. intros cur.
  apply preserves_bind; [apply preserves_gets|]. intros def.
  apply preserves_bind; [apply registry_kept_emit|]. intros _.
  apply preserves_bind.
  { case_bool_decide as Hd; [|apply preserves_ret].
    apply preserves_bind; [apply registry_kept_emit|]. intros _.
    apply preserves_bind; [apply registry_kept_emit|]. intros _.
    apply registry_kept_emit. }
  intros _.
  apply preserves_bind; [apply registry_kept_getAllocator|]. intros a.
  apply preserves_bind; [apply registry_kept_emit|]. intros _.
  apply preserves_bind; [apply preserves_deref_allocator|]. intros o.
  apply registry_kept_call_method.
Qed.

Lemma registry_kept_recordStream ptr stream :
  preserves P (recordStream ptr stream).
Proof.
  unfold recordStream. destruct (get_context ptr =? nullptr).
  - apply preserves_ret.
  - intros w H. by destruct (contexts w !! get_context ptr).
Qed.

Lemma registry_kept_run_op op : preserves P (run_op op).
Proof.
  destruct op; simpl.
  - apply Q_setAllocator.
  - apply preserves_void, registry_kept_getAllocator.
  - apply preserves_bind; [apply preserves_gets|]. intros s.
    apply preserves_for_each. intros p.
    apply (registry_kept_sweep_body EmptyCache empty_cache).
  - apply preserves_bind; [apply preserves_gets|]. intros s.
    apply preserves_for_each. intros p.
    apply (registry_kept_sweep_body ReleaseAllMemory release_all_memory).
  - apply preserves_void, preserves_memory_stat, registry_kept_getAllocator.
  - apply preserves_void, preserves_memory_stat, registry_kept_getAllocator.
  - apply preserves_void, preserves_memory_stat, registry_kept_getAllocator.
  - apply preserves_void, preserves_memory_stat, registry_kept_getAllocator.
  - apply registry_kept_recordStream.
  - intros w H.
    exact (preserves_void _ _ (registry_kept_allocate _ size) w H).
  - intros w H.
    exact (preserves_void _ _
             (preserves_raw_deleter _ registry_kept_getAllocator _) w H).
  - apply preserves_modify. by intros w H.
  - apply preserves_modify. by intros w H.
Qed.

End RegistryOnly.

(** X2: the registry only grows.  Through every program over the interface,
    an entry that is registered stays registered under its device type and
    name, and its priority never goes down: it is replaced only by a
    registration of a strictly higher priority, and no call removes it. *)
Theorem registry_entries_persist w ops w' device_type name entry :
  registered w device_type name = Some entry ->
  run ops w = Some w' ->
  exists entry',
    registered w' device_type name = Some entry' /\
    get_1 entry <= get_1 entry'.
Proof.
  intros Hreg Hrun.
  set (Q := fun r : option (gmap DeviceType (gmap string (Entry Mem))) =>
              exists entry',
                (r ≫= fun r => r !! device_type ≫= fun inner => inner !! name)
                = Some entry' /\
                get_1 entry <= get_1 entry').
  apply (run_invariant (fun w => Q (gDIPURegisteredAllocatorPtr w)) ops w w');
    [|by exists entry|exact Hrun].
  apply registry_kept_run_op.
  - intros r dt Hnone (entry' & Hentry & Hle). exists entry'.
    split; [|exact Hle]. simpl in *.
    destruct (decide (dt = device_type)) as [->|Hne].
    + by rewrite Hnone in Hentry.
    + by rewrite lookup_insert_ne.
  - intros name0 dt0 g priority w0 (entry' & Hentry & Hle).
    change (registered w0 device_type name = Some entry') in Hentry.
    destruct (setAllocator name0 dt0 g priority w0) as [[] w1|e w1|] eqn:Hset;
      [| |exact I].
    + destruct (decide ((device_type, name) = (dt0, name0))) as [[= -> ->]|Hne].
      * exists (make_tuple g priority). split.
        { exact (setAllocator_Ok_registered _ _ _ _ _ _ Hset). }
        simpl. destruct (Z.lt_ge_cases (get_1 entry') priority); [lia|].
        rewrite (setAllocator_conflict w0 name0 dt0 g priority entry')
          in Hset by (done || lia). done.
      * exists entry'. split; [|exact Hle].
        change (registered w1 device_type name = Some entry').
        rewrite <- Hentry.
        apply (setAllocator_other_entries w0 name0 dt0 g priority);
          [by rewrite Hset|exact Hne].
    + exists entry'. split; [|exact Hle].
      change (registered w1 device_type name = Some entry').
      destruct (decide ((device_type, name) = (dt0, name0))) as [[= -> ->]|Hne].
      * destruct (Z.lt_ge_cases (get_1 entry') priority) as [Hlt|Hge].
        -- destruct (setAllocator_stores w0 name0 dt0 g priority)
             as (w2 & Hok & _).
           { intros e0 He0. congruence. }
           congruence.
        -- rewrite (setAllocator_conflict w0 name0 dt0 g priority entry')
             in Hset by (done || lia).
           by injection Hset as _ <-.
      * rewrite <- Hentry.
        apply (setAllocator_other_entries w0 name0 dt0 g priority);
          [by rewrite Hset|exact Hne].
Qed.

End RegistryInvariants.

Section CacheInvariants.

Context {Mem : Type}.
Implicit Types (w : World Mem) (g : Getter Mem).

(** ** [used_allocator] is a set *)

Lemma strictly_increasing_NoDup (s : list Z) :
  strictly_increasing s -> NoDup s.
Proof.
  induction s as [|p s IH]; simpl; [constructor|].
  intros [Hlt Hs]. constructor; [|by apply IH].
  intros Hin. rewrite Forall_forall in Hlt. specialize (Hlt p Hin). lia.
Qed.

Lemma strictly_increasing_set_insert p (s : list Z) :
  strictly_increasing s -> strictly_increasing (set_insert p s).
Proof.
  induction s as [|q s IH]; simpl.
  - intros _. split; [constructor|exact I].
  - intros [Hq Hs]. destruct (Z.ltb_spec p q) as [Hlt|Hge].
    + simpl. split; [|by split]. constructor; [exact Hlt|].
      eapply Forall_impl; [exact Hq|]. intros x Hx. simpl in Hx. lia.
    + destruct (Z.eqb_spec p q) as [->|Hne]; simpl; [by split|].
      split; [|by apply IH].
      apply Forall_forall. intros x Hx.
      apply elem_of_set_insert in Hx as [->|Hx]; [lia|].
      rewrite Forall_forall in Hq. by apply Hq.
Qed.

(** X3: [used_allocator] never holds an allocator twice.  Through every
    program over the interface it stays strictly increasing by address, so
    each sweep meets each allocator once, also when a getter hands out one
    instance for several devices. *)
Theorem used_allocator_stays_a_set w ops w' :
  strictly_increasing (used_allocator w) ->
  run ops w = Some w' ->
  strictly_increasing (used_allocator w') /\ NoDup (used_allocator w').
Proof.
  intros Hinit Hrun.
  assert (H : strictly_increasing (used_allocator w')).
  { apply (run_preserves (fun w => strictly_increasing (used_allocator w)))
      with (ops := ops) (w := w); try done.
    intros device. apply preserves_getAllocator.
    - by split.
    - intros w0 p Hs _ _. simpl. by apply strictly_increasing_set_insert.
    - by split. }
  split; [exact H|]. by apply strictly_increasing_NoDup.
Qed.

(** ** The size of the lookup table *)







(** ** The first use of a slot *)

(** [createAllocator] with the algorithm registered and the getter
    returning. *)
Lemma createAllocator_found device w entry p h :
  registered w (dev_type device) (selected_algorithm (dev_type device) w)
  = Some entry ->
  get_0 entry (device_index_of device 0 w) (heap w) = Ok p h ->
  exists w',
    createAllocator device w = Ok p w' /\
    calls w'
    = calls w ++ [RegistryCount (dev_type device)
                    (selected_algorithm (dev_type device) w);
                  CallGetter (dev_type device)
                    (selected_algorithm (dev_type device) w)
                    (device_index_of device 0 w);
                  Created (dev_type device) p] /\
    heap w' = h /\
    used_allocator w'
    = (if bool_decide (dev_type device = DIPU_DEVICE_TYPE w)
       then set_insert p (used_allocator w) else used_allocator w) /\
    gDIPURegisteredAllocatorPtr w' = gDIPURegisteredAllocatorPtr w /\
    device_count w' = device_count w /\
    allocator_lookup_table w' = allocator_lookup_table w.
Proof.
  intros Hreg Hg.
  destruct (registered_Some _ _ _ _ Hreg) as (r & inner & Hr & Hdt & Hin).
  unfold createAllocator, registry_at, deref_registry, call_getter, emit,
    bind, gets, modify, ret, throw. simpl.
  repeat (progress (rewrite ?Hr, ?Hdt, ?Hin; simpl)).
  rewrite getDeviceIndex_eq.
  change (device_index_of device 0 (with_calls _ w))
    with (device_index_of device 0 w).
  simpl. rewrite Hg. simpl.
  case_bool_decide as Hdipu; simpl; eexists; (split; [reflexivity|]); simpl;
    rewrite <- !app_assoc; by repeat split.
Qed.

Lemma getAllocator_creates device w count t entry p h :
  device_count w = Some count ->
  allocator_lookup_table w = Some t ->
  0 <= device_index_of device count w ->
  t !! Z.to_nat (device_index_of device count w) = Some nullptr ->
  registered w (dev_type device) (selected_algorithm (dev_type device) w)
  = Some entry ->
  get_0 entry (device_index_of device 0 w) (heap w) = Ok p h ->
  exists w',
    getAllocator device w = Ok p w' /\
    allocator_lookup_table w'
    = Some (<[Z.to_nat (device_index_of device count w) := p]> t) /\
    heap w' = h /\
    calls w'
    = calls w ++ [RegistryCount (dev_type device)
                    (selected_algorithm (dev_type device) w);
                  CallGetter (dev_type device)
                    (selected_algorithm (dev_type device) w)
                    (device_index_of device 0 w);
                  Created (dev_type device) p] /\
    used_allocator w'
    = (if bool_decide (dev_type device = DIPU_DEVICE_TYPE w)
       then set_insert p (used_allocator w) else used_allocator w) /\
    gDIPURegisteredAllocatorPtr w' = gDIPURegisteredAllocatorPtr w.
Proof.
  intros Hc Ht Hi Hslot Hreg Hg.
  destruct (createAllocator_found device w entry p h Hreg Hg)
    as (w1 & Hcreate & Hcalls & Hheap & Hused & Hregistry & _ & _).
  rewrite (getAllocator_initialised device w count t Hc Ht).
  rewrite (lookup_or_create_slot device count t w nullptr Hi Hslot).
  simpl. rewrite Hcreate. eexists. split; [reflexivity|]. by simpl.
Qed.

(** X5: the first use of a slot creates its allocator.  With the statics
    made, the slot of the device empty and an entry registered for the
    algorithm selected for the device's class, [getAllocator] calls that
    entry's getter once, with the index of the device (0 for a host device,
    whose slot is the one after the devices' and not slot 0), stores what
    the getter returned in the slot and returns it; the allocator enters
    [used_allocator] exactly when the device is of the accelerator class. *)
Theorem getAllocator_creates_on_first_use device w count t entry p h :
  device_count w = Some count ->
  allocator_lookup_table w = Some t ->
  0 <= device_index_of device count w ->
  t !! Z.to_nat (device_index_of device count w) = Some nullptr ->
  registered w (dev_type device) (selected_algorithm (dev_type device) w)
  = Some entry ->
  get_0 entry (device_index_of device 0 w) (heap w) = Ok p h ->
  exists w',
    getAllocator device w = Ok p w' /\
    allocator_lookup_table w'
    = Some (<[Z.to_nat (device_index_of device count w) := p]> t) /\
    heap w' = h /\
    calls w'
    = calls w ++ [RegistryCount (dev_type device)
                    (selected_algorithm (dev_type device) w);
                  CallGetter (dev_type device)
                    (selected_algorithm (dev_type device) w)
                    (device_index_of device 0 w);
                  Created (dev_type device) p] /\
    used_allocator w'
    = (if bool_decide (dev_type device = DIPU_DEVICE_TYPE w)
       then set_insert p (used_allocator w) else used_allocator w) /\
    (is_cpu device = true ->
     device_index_of device 0 w = 0 /\
     device_index_of device count w = count).
Proof.
  intros Hc Ht Hi Hslot Hreg Hg.
  destruct (getAllocator_creates device w count t entry p h
              Hc Ht Hi Hslot Hreg Hg)
    as (w' & Hget & Htable & Hheap & Hcalls & Hused & _).
  exists w'. repeat (split; [done|]).
  intros Hcpu. unfold device_index_of. by rewrite Hcpu.
Qed.

(** [createAllocator] with the registry made and the algorithm missing. *)
Lemma createAllocator_missing device w r :
  gDIPURegisteredAllocatorPtr w = Some r ->
  registered w (dev_type device) (selected_algorithm (dev_type device) w)
  = None ->
  exists r',
    createAllocator device w
    = Throw (NoAllocatorFound (dev_type device)
               (dipu_device_memcaching_algorithm w))
        (with_registry (Some r')
           (with_calls
              (calls w ++ [RegistryCount (dev_type device)
                             (selected_algorithm (dev_type device) w)]) w)) /\
    forall device_type name,
      r' !! device_type ≫= (fun inner => inner !! name)
      = registered w device_type name.
Proof.
  intros Hr Hnone. unfold registered in *. rewrite Hr in *. simpl in Hnone.
  unfold createAllocator, registry_at, deref_registry, emit, bind, gets,
    modify, ret, throw. simpl.
  destruct (r !! dev_type device) as [inner|] eqn:Hdt; simpl in *.
  - repeat (progress (rewrite ?Hr, ?Hdt, ?Hnone; simpl)).
    exists r. split; [|done]. f_equal. destruct w; simpl in *. by subst.
  - repeat (progress (rewrite ?Hr, ?Hdt, ?lookup_empty; simpl)).
    eexists. split; [reflexivity|]. intros device_type name. simpl.
    destruct (decide (dev_type device = device_type)) as [<-|Hne].
    + rewrite lookup_insert_eq, Hdt. simpl. apply lookup_empty.
    + by rewrite lookup_insert_ne.
Qed.

(** X6: a creation that failed is not remembered.  When [getAllocator]
    throws because the selected algorithm has no entry, the slot stays
    empty; once the algorithm is registered, the next call of
    [getAllocator] for the device calls the new getter and fills the
    slot. *)
Theorem failed_creation_is_retried device w r count t g priority p h :
  gDIPURegisteredAllocatorPtr w = Some r ->
  registered w (dev_type device) (selected_algorithm (dev_type device) w)
  = None ->
  device_count w = Some count ->
  allocator_lookup_table w = Some t ->
  0 <= device_index_of device count w ->
  t !! Z.to_nat (device_index_of device count w) = Some nullptr ->
  g (device_index_of device 0 w) (heap w) = Ok p h ->
  exists w1 w2 w3,
    getAllocator device w
    = Throw (NoAllocatorFound (dev_type device)
               (dipu_device_memcaching_algorithm w)) w1 /\
    allocator_lookup_table w1 = Some t /\
    setAllocator (selected_algorithm (dev_type device) w) (dev_type device)
      g priority w1 = Ok tt w2 /\
    getAllocator device w2 = Ok p w3 /\
    allocator_lookup_table w3
    = Some (<[Z.to_nat (device_index_of device count w) := p]> t).
Proof.
  intros Hr Hnone Hc Ht Hi Hslot Hg.
  destruct (createAllocator_missing device w r Hr Hnone) as (r' & Hthrow & Hsame).
  set (alg := selected_algorithm (dev_type device) w) in *.
  set (w1 := with_registry (Some r')
               (with_calls (calls w ++ [RegistryCount (dev_type device) alg])
                  w)) in *.
  assert (Hnone1 : registered w1 (dev_type device) alg = None).
  { unfold registered. simpl. by rewrite Hsame. }
  destruct (setAllocator_stores w1 alg (dev_type device) g priority)
    as (w2 & Hset & Hreg2).
  { intros e He. congruence. }
  assert (Hw2 : w2 = with_registry (gDIPURegisteredAllocatorPtr w2) w1).
  { apply (setAllocator_only_registry w1 alg (dev_type device) g priority).
    by rewrite Hset. }
  assert (Hidx : forall host, device_index_of device host w2
                              = device_index_of device host w).
  { intros host. rewrite Hw2. reflexivity. }
  assert (Halg : selected_algorithm (dev_type device) w2 = alg).
  { rewrite Hw2. reflexivity. }
  destruct (getAllocator_creates device w2 count t (make_tuple g priority) p h)
    as (w3 & Hget & Htable & _).
  - rewrite Hw2. exact Hc.
  - rewrite Hw2. exact Ht.
  - by rewrite Hidx.
  - by rewrite Hidx.
  - by rewrite Halg.
  - simpl. rewrite Hidx. rewrite Hw2. exact Hg.
  - exists w1, w2, w3. split; [|split; [|split; [|split]]].
    + rewrite (getAllocator_initialised device w count t Hc Ht).
      rewrite (lookup_or_create_slot device count t w nullptr Hi Hslot).
      simpl. by rewrite Hthrow.
    + exact Ht.
    + exact Hset.
    + exact Hget.
    + by rewrite Hidx in Htable.
Qed.

(** X7: the overload of [getAllocator] that takes a device type looks at
    the current device when it is called.  For a device type other than
    [CPU] it returns what the slot of the current device holds, so a change
    of the current device changes the allocator the proxy delegates to; for
    [CPU] it returns what the host slot holds, whatever the current
    device. *)
Theorem getAllocator_of_type_follows_the_current_device
    device_type w count current a :
  a <> nullptr ->
  (device_type <> CPU ->
   0 <= current ->
   memoized count (Z.to_nat current) a w ->
   getAllocator_of_type device_type (set_device current w)
   = Ok a (set_device current w)) /\
  (device_type = CPU ->
   0 <= count ->
   memoized count (Z.to_nat count) a w ->
   getAllocator_of_type device_type (set_device current w)
   = Ok a (set_device current w)).
Proof.
  intros Ha. split.
  - intros Hdt Hcur Hmemo. unfold getAllocator_of_type.
    assert (Hidx : device_index_of (Device_of_type device_type) count
                     (set_device current w) = current).
    { unfold device_index_of, is_cpu. simpl.
      by rewrite bool_decide_eq_false_2. }
    apply (getAllocator_memoized_returns _ _ count a Ha); rewrite Hidx;
      [exact Hcur|exact Hmemo].
  - intros -> Hcount Hmemo. unfold getAllocator_of_type.
    assert (Hidx : device_index_of (Device_of_type CPU) count
                     (set_device current w) = count) by reflexivity.
    apply (getAllocator_memoized_returns _ _ count a Ha); rewrite Hidx;
      [exact Hcount|exact Hmemo].
Qed.

(** ** The statistics queries and [raw_deleter] *)

Lemma memory_stat_memoized stat device w count a o :
  a <> nullptr ->
  0 <= device_index_of device count w ->
  memoized count (Z.to_nat (device_index_of device count w)) a w ->
  heap w !! a = Some o ->
  memory_stat stat device w = Ok (statistic stat o) w.
Proof.
  intros Ha Hi Hmemo Ho.
  unfold memory_stat, dynamic_cast_CacheAllocator, deref_allocator,
    statistic, bind, ret.
  rewrite (getAllocator_memoized_returns device w count a Ha Hi Hmemo).
  destruct (Z.eqb_spec a nullptr) as [Hnull|_]; [done|].
  rewrite Ho. destruct (obj_cache o) as [c|]; [|reflexivity].
  destruct (Z.eqb_spec a nullptr) as [Hnull|_]; [done|].
  by rewrite Ho.
Qed.

(** X8: the statistics queries only read.  For a device whose allocator
    has been created, each of the four queries returns the value of the
    matching method on the allocator's data when the allocator is a
    [CacheAllocator], and 0 when it is any other allocator, and leaves the
    whole state as it was. *)
Theorem memory_statistics_read_the_created_allocator device w count a o :
  a <> nullptr ->
  0 <= device_index_of device count w ->
  memoized count (Z.to_nat (device_index_of device count w)) a w ->
  heap w !! a = Some o ->
  memoryReserved device w = Ok (statistic memory_reserved o) w /\
  memoryAllocated device w = Ok (statistic memory_allocated o) w /\
  maxMemoryReserved device w = Ok (statistic max_memory_reserved o) w /\
  maxMemoryAllocated device w = Ok (statistic max_memory_allocated o) w /\
  (obj_cache o = None ->
   memoryReserved device w = Ok 0 w /\ memoryAllocated device w = Ok 0 w /\
   maxMemoryReserved device w = Ok 0 w /\
   maxMemoryAllocated device w = Ok 0 w).
Proof.
  intros Ha Hi Hmemo Ho.
  pose proof (fun stat => memory_stat_memoized stat device w count a o
                            Ha Hi Hmemo Ho) as H.
  repeat (split; [apply H|]).
  intros Hnone. unfold memoryReserved, memoryAllocated, maxMemoryReserved,
    maxMemoryAllocated. rewrite !H. unfold statistic. by rewrite Hnone.
Qed.

(** X9: [raw_deleter] does not order streams.  Whatever its outcome, it
    adds no event record and no wait to the log, unlike [allocate]; and when
    it returns, it returns the deleter of the allocator that [getAllocator]
    gave for the proxy's device type, which is not null. *)
Theorem raw_deleter_never_orders_streams self w :
  (forall w',
      final_state (raw_deleter self w) = Some w' ->
      exists rest,
        calls w' = calls w ++ rest /\
        Forall (fun c => is_sync c = false) rest) /\
  (forall deleter w',
      raw_deleter self w = Ok deleter w' ->
      exists a o,
        getAllocator (Device_of_type (device_type_ self)) w = Ok a w' /\
        a <> nullptr /\
        heap w' !! a = Some o /\
        deleter = obj_raw_deleter o).
Proof.
  split.
  - intros w' Hfinal.
    assert (Hpres : preserves
              (fun w0 : World Mem => exists rest,
                 calls w0 = calls w ++ rest /\
                 Forall (fun c => is_sync c = false) rest)
              (raw_deleter self)).
    { apply preserves_raw_deleter. intros device.
      apply preserves_getAllocator.
      - apply no_sync_since_stable.
      - by intros w0 p.
      - by split. }
    specialize (Hpres w).
    destruct (raw_deleter self w) as [d w1|e w1|]; simpl in Hfinal;
      [| |done]; injection Hfinal as <-; apply Hpres;
      exists []; by rewrite app_nil_r.
  - intros deleter w'.
    unfold raw_deleter, getAllocator_of_type, deref_allocator, bind, ret.
    destruct (getAllocator (Device_of_type (device_type_ self)) w)
      as [a w1|e w1|]; [|done..].
    destruct (Z.eqb_spec a nullptr) as [Hnull|Hnn]; [done|].
    destruct (heap w1 !! a) as [o|] eqn:Ho; [|done].
    intros [= <- <-]. by exists a, o.
Qed.

(** ** [recordStream] on a caching-allocator context *)

Lemma recordStream_context ptr stream w streams :
  get_context ptr <> nullptr ->
  contexts w !! get_context ptr = Some streams ->
  recordStream ptr stream w
  = Ok tt (with_contexts
             (<[get_context ptr := {[stream]} ∪ streams]> (contexts w)) w).
Proof.
  intros Hctx Hstreams. unfold recordStream.
  destruct (Z.eqb_spec (get_context ptr) nullptr) as [Hnull|_]; [done|].
  by rewrite Hstreams.
Qed.

(** X10: [recordStream] on a data pointer that carries a context adds the
    stream to the stream set of that context and changes nothing else: the
    other contexts, the allocators, the registry and the log are as they
    were.  Recording the same stream again changes nothing at all. *)
Theorem recordStream_adds_the_stream_once ptr stream w streams :
  get_context ptr <> nullptr ->
  contexts w !! get_context ptr = Some streams ->
  exists w1,
    recordStream ptr stream w = Ok tt w1 /\
    contexts w1 !! get_context ptr = Some ({[stream]} ∪ streams) /\
    (forall ctx, ctx <> get_context ptr ->
                 contexts w1 !! ctx = contexts w !! ctx) /\
    w1 = with_contexts (contexts w1) w /\
    recordStream ptr stream w1 = Ok tt w1.
Proof.
  intros Hctx Hstreams.
  rewrite (recordStream_context ptr stream w streams Hctx Hstreams).
  eexists. split; [reflexivity|]. simpl.
  split; [apply lookup_insert_eq|].
  split; [intros ctx Hne; by apply lookup_insert_ne|].
  split; [reflexivity|].
  rewrite (recordStream_context ptr stream _ ({[stream]} ∪ streams) Hctx)
    by apply lookup_insert_eq.
  simpl. rewrite insert_insert_eq.
  replace ({[stream]} ∪ ({[stream]} ∪ streams)) with ({[stream]} ∪ streams)
    by (rewrite (assoc_L (∪)); by rewrite (idemp_L (∪))).
  reflexivity.
Qed.

(** X11: the order in which streams are recorded does not matter.  Two
    calls of [recordStream], on the same data pointer or on two, with any
    two streams, lead to the same state in either order. *)
Theorem recordStream_calls_commute ptr1 ptr2 stream1 stream2 w
    streams1 streams2 :
  get_context ptr1 <> nullptr ->
  get_context ptr2 <> nullptr ->
  contexts w !! get_context ptr1 = Some streams1 ->
  contexts w !! get_context ptr2 = Some streams2 ->
  exists w',
    (recordStream ptr1 stream1;; recordStream ptr2 stream2) w = Ok tt w' /\
    (recordStream ptr2 stream2;; recordStream ptr1 stream1) w = Ok tt w'.
Proof.
  intros Hctx1 Hctx2 Hs1 Hs2. unfold bind.
  rewrite (recordStream_context ptr1 stream1 w streams1 Hctx1 Hs1).
  rewrite (recordStream_context ptr2 stream2 w streams2 Hctx2 Hs2).
  destruct (decide (get_context ptr1 = get_context ptr2)) as [Heq|Hne].
  - assert (streams1 = streams2) as -> by (rewrite Heq in Hs1; congruence).
    rewrite (recordStream_context ptr2 stream2 _ ({[stream1]} ∪ streams2)
               Hctx2) by (simpl; rewrite Heq; apply lookup_insert_eq).
    rewrite (recordStream_context ptr1 stream1 _ ({[stream2]} ∪ streams2)
               Hctx1) by (simpl; rewrite Heq; apply lookup_insert_eq).
    assert (Hsets : {[stream1]} ∪ ({[stream2]} ∪ streams2)
                    = {[stream2]} ∪ ({[stream1]} ∪ streams2) :> gset Z).
    { rewrite !(assoc_L (∪)).
      by rewrite (comm_L (∪) {[stream1]} {[stream2]}). }
    eexists. split; [reflexivity|]. simpl.
    by rewrite Heq, !insert_insert_eq, Hsets.
  - rewrite (recordStream_context ptr2 stream2 _ streams2 Hctx2)
      by (simpl; by rewrite lookup_insert_ne).
    rewrite (recordStream_context ptr1 stream1 _ streams1 Hctx1)
      by (simpl; by rewrite lookup_insert_ne).
    eexists. split; [reflexivity|]. simpl.
    by rewrite insert_insert_ne.
Qed.

(** ** Sweeps that return *)

Lemma filter_agree {A} (P1 P2 : A -> Prop)
    {Hdec1 : forall x, Decision (P1 x)} {Hdec2 : forall x, Decision (P2 x)}
    (l : list A) :
  (forall x, x ∈ l -> P1 x <-> P2 x) -> filter P1 l = filter P2 l.
Proof.
  induction l as [|x l IH]; intros Hagree; [reflexivity|].
  rewrite !filter_cons.
  rewrite IH by (intros y Hy; apply Hagree; by right).
  assert (Hx : P1 x <-> P2 x) by (apply Hagree; by left).
  destruct (decide (P1 x)) as [H1|H1], (decide (P2 x)) as [H2|H2];
    try reflexivity; tauto.
Qed.

Section SweepReturns.

Variable call : Ptr -> Call.
Variable method : CacheAllocator Mem -> Mem -> Res Mem unit.
Variable body : Ptr -> World Mem -> Res (World Mem) unit.
Hypothesis body_eq : forall p,
  body p
  = (let* cached_allocator := dynamic_cast_CacheAllocator p in
     match cached_allocator with
     | Some c => emit (call p);; call_method p (method c)
     | None => ret tt
     end).

Lemma body_returns p w :
  sweepable method w p ->
  exists w',
    body p w = Ok tt w' /\
    calls w'
    = calls w ++ (if decide (is_Some (cache_part w p)) then [call p] else []) /\
    used_allocator w' = used_allocator w /\
    (forall q, q <> p -> heap w' !! q = heap w !! q) /\
    (cache_part w p = None -> heap w' = heap w) /\
    (forall o c, heap w !! p = Some o -> cache_part w p = Some c ->
       exists m', method c (obj_mem o) = Ok tt m' /\
                  heap w' !! p = Some (with_mem m' o)).
Proof.
  intros Hsweep. rewrite body_eq.
  destruct (cache_part w p) as [c|] eqn:Hpart.
  - unfold cache_part in Hpart.
    destruct (Z.eqb_spec p nullptr) as [Hnull|Hnn]; [done|].
    destruct (heap w !! p) as [o|] eqn:Ho; simpl in Hpart; [|done].
    unfold dynamic_cast_CacheAllocator, call_method, deref_allocator, emit,
      bind, modify, ret. simpl.
    destruct (Z.eqb_spec p nullptr) as [Hnull|_]; [done|].
    rewrite Ho. simpl. rewrite Hpart. simpl. rewrite Ho.
    destruct Hsweep as [Hnull|(o' & Ho' & Hmethod)]; [done|].
    assert (o' = o) as -> by congruence.
    destruct (Hmethod c Hpart) as (m' & Hm). rewrite Hm.
    eexists. split; [reflexivity|]. simpl.
    rewrite ?decide_True by eauto.
    split; [reflexivity|]. split; [reflexivity|].
    split; [intros q Hq; by apply lookup_insert_ne|].
    split; [done|].
    intros o' c' [= <-] [= <-]. exists m'.
    split; [exact Hm|apply lookup_insert_eq].
  - assert (Hbody : (let* cached_allocator := dynamic_cast_CacheAllocator p in
                     match cached_allocator with
                     | Some c => emit (call p);; call_method p (method c)
                     | None => ret tt
                     end) w = Ok tt w).
    { unfold cache_part in Hpart.
      unfold dynamic_cast_CacheAllocator, deref_allocator, bind, ret.
      destruct (Z.eqb_spec p nullptr) as [Hnull|Hnn]; [reflexivity|].
      destruct Hsweep as [Hnull|(o & Ho & _)]; [done|].
      rewrite Ho in *. simpl in Hpart. by rewrite Hpart. }
    rewrite Hbody. exists w. rewrite ?decide_False by (intros [? ?]; done).
    rewrite app_nil_r. repeat split; try done.
Qed.

Lemma for_each_returns s w :
  NoDup s ->
  (forall p, p ∈ s -> sweepable method w p) ->
  exists w',
    for_each body s w = Ok tt w' /\
    calls w'
    = calls w ++ (call <$> filter (fun p => is_Some (cache_part w p)) s) /\
    used_allocator w' = used_allocator w /\
    (forall q, q ∉ s -> heap w' !! q = heap w !! q) /\
    (forall q, cache_part w q = None -> heap w' !! q = heap w !! q) /\
    (forall q o c, q ∈ s -> heap w !! q = Some o -> cache_part w q = Some c ->
       exists m', method c (obj_mem o) = Ok tt m' /\
                  heap w' !! q = Some (with_mem m' o)).
Proof.
  revert w. induction s as [|p s IH]; intros w Hnodup Hall; simpl.
  - exists w. rewrite app_nil_r. repeat split; try done.
    intros q o c Hq. by apply elem_of_nil in Hq.
  - apply NoDup_cons in Hnodup as [Hp Hnodup].
    destruct (body_returns p w) as (w1 & Hbody & Hcalls1 & Hused1 & Hother1
                                     & Hnone1 & Hcache1).
    { apply Hall. by left. }
    assert (Hheap : forall q, q ∈ s -> heap w1 !! q = heap w !! q).
    { intros q Hq. apply Hother1. intros ->. done. }
    assert (Hpart : forall q, q ∈ s -> cache_part w1 q = cache_part w q).
    { intros q Hq. unfold cache_part. by rewrite Hheap. }
    destruct (IH w1 Hnodup) as (w' & Hrest & Hcalls & Hused & Hother & Hnone
                                & Hcache).
    { intros q Hq. destruct (Hall q) as [->|(o & Ho & Hm)]; [by right|by left|].
      right. exists o. by rewrite Hheap. }
    exists w'. unfold bind. rewrite Hbody.
    split; [exact Hrest|]. split; [|split; [congruence|split; [|split]]].
    + rewrite Hcalls, Hcalls1, filter_cons.
      rewrite (filter_agree (fun q => is_Some (cache_part w1 q))
                 (fun q => is_Some (cache_part w q)) s)
        by (intros q Hq; by rewrite Hpart).
      destruct (decide (is_Some (cache_part w p))); simpl;
        by rewrite <- ?app_assoc, ?app_nil_r.
    + intros q Hq. rewrite Hother, Hother1; [done| |];
        intros Hin; apply Hq; [subst; by left|by right].
    + intros q Hq. destruct (decide (q = p)) as [->|Hne].
      * rewrite Hother by done. by rewrite (Hnone1 Hq).
      * rewrite Hnone; [by apply Hother1|].
        unfold cache_part in *. by rewrite Hother1.
    + intros q o c Hq Ho Hc. apply elem_of_cons in Hq as [->|Hq].
      * destruct (Hcache1 o c Ho Hc) as (m' & Hm & Hw1). exists m'.
        split; [exact Hm|]. by rewrite Hother.
      * apply (Hcache q o c Hq); [by rewrite Hheap|by rewrite Hpart].
Qed.

End SweepReturns.

(** X12: a sweep in which no method throws visits the whole set.  When
    [used_allocator] holds no allocator twice and each member is
    [nullptr] or an allocator object whose [empty_cache] (for
    [releaseAllDeviceMem]: whose [release_all_memory]) returns,
    [emptyCachedMem] returns and has called the method exactly once on
    each member that is a [CacheAllocator], from the lowest address up;
    members that are [nullptr] or not a [CacheAllocator] are skipped, and
    no allocator object outside the set is touched. *)
Theorem sweeps_call_every_cache_allocator_once w :
  NoDup (used_allocator w) ->
  ((forall p, p ∈ used_allocator w -> sweepable empty_cache w p) ->
   exists w',
     emptyCachedMem w = Ok tt w' /\
     calls w'
     = calls w ++ (EmptyCache <$> filter (fun p => is_Some (cache_part w p))
                                    (used_allocator w)) /\
     (forall q, q ∉ used_allocator w \/ cache_part w q = None ->
                heap w' !! q = heap w !! q) /\
     (forall q o c,
         q ∈ used_allocator w -> heap w !! q = Some o ->
         cache_part w q = Some c ->
         exists m', empty_cache c (obj_mem o) = Ok tt m' /\
                    heap w' !! q = Some (with_mem m' o))) /\
  ((forall p, p ∈ used_allocator w -> sweepable release_all_memory w p) ->
   exists w',
     releaseAllDeviceMem w = Ok tt w' /\
     calls w'
     = calls w ++ (ReleaseAllMemory <$>
                     filter (fun p => is_Some (cache_part w p))
                       (used_allocator w)) /\
     (forall q, q ∉ used_allocator w \/ cache_part w q = None ->
                heap w' !! q = heap w !! q) /\
     (forall q o c,
         q ∈ used_allocator w -> heap w !! q = Some o ->
         cache_part w q = Some c ->
         exists m', release_all_memory c (obj_mem o) = Ok tt m' /\
                    heap w' !! q = Some (with_mem m' o))).
Proof.
  intros Hnodup. split; intros Hall.
  - destruct (for_each_returns EmptyCache empty_cache empty_allocator_cache
                (fun _ => eq_refl) (used_allocator w) w Hnodup Hall)
      as (w' & Hrun & Hcalls & _ & Hother & Hnone & Hcache).
    exists w'. split; [exact Hrun|]. split; [exact Hcalls|].
    split; [|exact Hcache]. intros q [Hq|Hq]; [by apply Hother|by apply Hnone].
  - destruct (for_each_returns ReleaseAllMemory release_all_memory
                release_allocator_memory (fun _ => eq_refl)
                (used_allocator w) w Hnodup Hall)
      as (w' & Hrun & Hcalls & _ & Hother & Hnone & Hcache).
    exists w'. split; [exact Hrun|]. split; [exact Hcalls|].
    split; [|exact Hcache]. intros q [Hq|Hq]; [by apply Hother|by apply Hnone].
Qed.

(** ** The slots of the lookup table *)

(** X17: the host shares its slot with the device of index [device_count].
    The host allocator lives in the slot after the devices' slots, and a
    device index is not compared with the device count: once the host
    allocator is created, [getAllocator] returns it for every host device
    and also for a device of any type whose index is the device count. *)
Theorem host_slot_is_shared_with_the_device_of_index_count
    device_type host w count a :
  a <> nullptr ->
  0 <= count ->
  memoized count (Z.to_nat count) a w ->
  getAllocator (mkDevice CPU host) w = Ok a w /\
  getAllocator (mkDevice device_type count) w = Ok a w.
Proof.
  intros Ha Hcount Hmemo.
  assert (Hhost : device_index_of (mkDevice CPU host) count w = count)
    by reflexivity.
  assert (Hdevice : device_index_of (mkDevice device_type count) count w
                    = count).
  { unfold device_index_of, is_cpu, has_index. simpl.
    case_bool_decide as Hd; [reflexivity|].
    destruct (Z.eqb_spec count (-1)); [lia|reflexivity]. }
  split; apply (getAllocator_memoized_returns _ w count a);
    rewrite ?Hhost, ?Hdevice; assumption.
Qed.

(** X18: [getAllocator] does not check the index.  With the table made, a
    device whose index is below 0 or above the device count (an index given
    with the device, or the current device of the runtime) makes the call
    index the table outside its bounds: the behaviour is undefined, no
    error is raised. *)
Theorem getAllocator_does_not_check_the_index device w count t :
  device_count w = Some count ->
  allocator_lookup_table w = Some t ->
  0 <= count ->
  Z.of_nat (length t) = count + 1 ->
  device_index_of device count w < 0 \/ count < device_index_of device count w ->
  getAllocator device w = Undefined /\
  is_cpu device = false /\
  device_index_of device count w
  = (if has_index device then dev_index device else rt_current_device w).
Proof.
  intros Hc Ht Hcount Hlen Hout.
  assert (Hcpu : is_cpu device = false).
  { destruct (is_cpu device) eqn:Hcpu; [|reflexivity].
    unfold device_index_of in Hout. rewrite Hcpu in Hout. lia. }
  split; [|split; [exact Hcpu|]].
  - rewrite (getAllocator_initialised device w count t Hc Ht).
    unfold lookup_or_create, bind. rewrite getDeviceIndex_eq.
    destruct (Z.ltb_spec (device_index_of device count w) 0) as [Hneg|Hpos];
      simpl; [reflexivity|].
    destruct (Z.leb_spec (Z.of_nat (length t))
                (device_index_of device count w)); [reflexivity|lia].
  - unfold device_index_of. by rewrite Hcpu.
Qed.

End CacheInvariants.

(** * Properties of the layer-normalisation helpers *)

Module LayerNormProperties.

Import LayerNorm.

Lemma product_drop (shape : list Z) i extent :
  shape !! i = Some extent ->
  product (drop i shape) = extent * product (drop (S i) shape).
Proof.
  intros Hi. by rewrite (drop_S shape extent i Hi).
Qed.

(** The loop, from a vector whose entries from index [k] on are final. *)
Lemma stride_loop_spec k (shape v : list Z) scale :
  length v = length shape ->
  (k < length shape)%nat ->
  (forall j, (k <= j < length shape)%nat ->
             v !! j = Some (scale * product (drop (S j) shape))) ->
  (forall j, (j < k)%nat ->
             in_int64 (scale * product (drop (S j) shape)) = true) ->
  exists v',
    stride_loop k shape v = Some v' /\
    length v' = length shape /\
    forall j, (j < length shape)%nat ->
              v' !! j = Some (scale * product (drop (S j) shape)).
Proof.
  revert v. induction k as [|i IH]; intros v Hlen Hk Hdone Hrange; simpl.
  - exists v. split; [reflexivity|]. split; [exact Hlen|].
    intros j Hj. apply Hdone. lia.
  - rewrite (Hdone (S i)) by lia. simpl.
    destruct (lookup_lt_is_Some_2 shape (S i) Hk) as [extent Hextent].
    rewrite Hextent. simpl.
    assert (Hprod : scale * product (drop (S (S i)) shape) * extent
                    = scale * product (drop (S i) shape)).
    { rewrite (product_drop shape (S i) extent Hextent). lia. }
    unfold mul_int64. rewrite Hprod, (Hrange i) by lia. simpl.
    apply IH.
    + by rewrite length_insert.
    + lia.
    + intros j Hj. destruct (decide (j = i)) as [->|Hne].
      * apply list_lookup_insert_eq. lia.
      * rewrite list_lookup_insert_ne by done. apply Hdone. lia.
    + intros j Hj. apply Hrange. lia.
Qed.

(** A loop that ends without overflow has met no overflow on its way. *)
Lemma stride_loop_defined k (shape v v' : list Z) scale :
  length v = length shape ->
  (k < length shape)%nat ->
  (forall j, (k <= j < length shape)%nat ->
             v !! j = Some (scale * product (drop (S j) shape))) ->
  stride_loop k shape v = Some v' ->
  forall j, (j < k)%nat ->
            in_int64 (scale * product (drop (S j) shape)) = true.
Proof.
  revert v. induction k as [|i IH]; intros v Hlen Hk Hdone Hloop j Hj;
    [lia|].
  simpl in Hloop. rewrite (Hdone (S i)) in Hloop by lia. simpl in Hloop.
  destruct (lookup_lt_is_Some_2 shape (S i) Hk) as [extent Hextent].
  rewrite Hextent in Hloop. simpl in Hloop.
  assert (Hprod : scale * product (drop (S (S i)) shape) * extent
                  = scale * product (drop (S i) shape)).
  { rewrite (product_drop shape (S i) extent Hextent). lia. }
  unfold mul_int64 in Hloop. rewrite Hprod in Hloop.
  destruct (in_int64 (scale * product (drop (S i) shape))) eqn:Hin;
    simpl in Hloop; [|done].
  destruct (decide (j = i)) as [->|Hne]; [exact Hin|].
  apply (IH (<[i := scale * product (drop (S i) shape)]> v)); try lia.
  - by rewrite length_insert.
  - intros j' Hj'. destruct (decide (j' = i)) as [->|Hne'].
    + apply list_lookup_insert_eq. lia.
    + rewrite list_lookup_insert_ne by done. apply Hdone. lia.
  - exact Hloop.
Qed.

Lemma length_resize n value (v : list Z) : length (resize n value v) = n.
Proof.
  unfold resize. rewrite length_app, length_take, length_replicate. lia.
Qed.

(** The last element after [resize]: the old one when the vector was long
    enough, the fill value otherwise. *)
Lemma resize_last n value (v : list Z) :
  resize (S n) value v !! n = Some (default value (v !! n)).
Proof.
  unfold resize. destruct (v !! n) as [x|] eqn:Hx; simpl.
  - rewrite lookup_app_l by (rewrite length_take;
                              apply lookup_lt_Some in Hx; lia).
    rewrite lookup_take_lt by lia. exact Hx.
  - apply lookup_ge_None in Hx.
    rewrite lookup_app_r by (rewrite length_take; lia).
    rewrite length_take. apply lookup_replicate_2. lia.
Qed.

Lemma resize_last' n value (v : list Z) :
  (0 < n)%nat ->
  resize n value v !! (n - 1)%nat = Some (default value (v !! (n - 1)%nat)).
Proof.
  destruct n as [|n]; [lia|]. intros _.
  replace (S n - 1)%nat with n by lia. apply resize_last.
Qed.

Lemma computeStrideFromShape_spec (shape strideVec : list Z) :
  (forall j, (S j < length shape)%nat ->
     in_int64 (default 1 (strideVec !! (length shape - 1)%nat)
               * product (drop (S j) shape)) = true) ->
  exists strides,
    computeStrideFromShape shape strideVec = Some strides /\
    length strides = length shape /\
    forall j, (j < length shape)%nat ->
      strides !! j
      = Some (default 1 (strideVec !! (length shape - 1)%nat)
              * product (drop (S j) shape)).
Proof.
  intros Hrange. unfold computeStrideFromShape.
  destruct (decide (length shape = 0%nat)) as [Hz|Hnz].
  { apply nil_length_inv in Hz. subst shape. exists []. simpl.
    split; [reflexivity|]. split; [reflexivity|]. intros j Hj. lia. }
  apply stride_loop_spec.
  - apply length_resize.
  - lia.
  - intros j Hj. assert (j = (length shape - 1)%nat) as -> by lia.
    rewrite resize_last' by lia.
    rewrite drop_ge by lia. simpl. f_equal. lia.
  - intros j Hj. apply Hrange. lia.
Qed.

Lemma computeStrideFromShape_fresh (shape : list Z) :
  (forall j, (S j < length shape)%nat ->
             in_int64 (product (drop (S j) shape)) = true) ->
  exists strides,
    computeStrideFromShape shape [] = Some strides /\
    length strides = length shape /\
    forall j, (j < length shape)%nat ->
              strides !! j = Some (product (drop (S j) shape)).
Proof.
  intros Hrange.
  assert (Hscale : default 1 (([] : list Z) !! (length shape - 1)%nat) = 1)
    by by rewrite lookup_nil.
  destruct (computeStrideFromShape_spec shape []) as (strides & H1 & H2 & H3).
  - rewrite Hscale. intros j Hj. rewrite Z.mul_1_l. by apply Hrange.
  - exists strides. split; [exact H1|]. split; [exact H2|].
    intros j Hj. rewrite (H3 j Hj), Hscale. f_equal. lia.
Qed.

(** X13: on a fresh vector, [computeStrideFromShape] gives the strides of
    a contiguous row-major tensor: as many strides as the shape has
    extents, the stride of a dimension being the product of the extents of
    the dimensions after it, so the last stride is 1 and an empty shape
    gives no strides.  The call is defined exactly when each of these
    products fits [int64_t]; the first extent is never multiplied. *)
Theorem computeStrideFromShape_gives_row_major_strides (shape : list Z) :
  ((forall j, (S j < length shape)%nat ->
              in_int64 (product (drop (S j) shape)) = true) <->
   is_Some (computeStrideFromShape shape [])) /\
  (forall strides,
      computeStrideFromShape shape [] = Some strides ->
      length strides = length shape /\
      (forall j, (j < length shape)%nat ->
                 strides !! j = Some (product (drop (S j) shape))) /\
      (forall j extent next,
          shape !! S j = Some extent -> strides !! S j = Some next ->
          strides !! j = Some (next * extent))).
Proof.
  pose proof (computeStrideFromShape_fresh shape) as Hif.
  assert (Honly : is_Some (computeStrideFromShape shape []) ->
                  forall j, (S j < length shape)%nat ->
                    in_int64 (product (drop (S j) shape)) = true).
  { intros [strides Hsome] j Hj. unfold computeStrideFromShape in Hsome.
    rewrite <- (Z.mul_1_l (product _)).
    apply (stride_loop_defined (length shape - 1) shape
             (resize (length shape) 1 []) strides 1); try lia.
    - apply length_resize.
    - intros j' Hj'. assert (j' = (length shape - 1)%nat) as -> by lia.
      rewrite resize_last', lookup_nil by lia. simpl.
      rewrite drop_ge by lia. reflexivity.
    - exact Hsome. }
  split; [split|].
  - intros Hrange. destruct (Hif Hrange) as (strides & H1 & _). by exists strides.
  - exact Honly.
  - intros strides Hsome.
    destruct (Hif (Honly (ex_intro _ strides Hsome)))
      as (strides' & H1 & H2 & H3).
    assert (strides' = strides) as -> by congruence.
    split; [exact H2|]. split; [exact H3|].
    intros j extent next Hextent Hnext.
    assert (Hj : (S j < length shape)%nat) by by apply lookup_lt_Some in Hextent.
    rewrite (H3 (S j)) in Hnext by lia. injection Hnext as <-.
    rewrite (H3 j) by lia. f_equal.
    rewrite (product_drop shape (S j) extent Hextent). lia.
Qed.

(** X14: [computeStrideFromShape] reuses what the vector holds.  [resize]
    keeps the elements a vector already has, and the loop never writes the
    last stride: with a vector that already had at least as many elements
    as the shape has extents, the element at the last index stays and every
    stride is the row-major stride multiplied by it; with a shorter vector
    the result is the one of a fresh vector. *)
Theorem computeStrideFromShape_keeps_a_stale_last_stride
    (shape strideVec : list Z) :
  (forall j, (S j < length shape)%nat ->
     in_int64 (default 1 (strideVec !! (length shape - 1)%nat)
               * product (drop (S j) shape)) = true) ->
  exists strides,
    computeStrideFromShape shape strideVec = Some strides /\
    length strides = length shape /\
    (forall j, (j < length shape)%nat ->
       strides !! j
       = Some (default 1 (strideVec !! (length shape - 1)%nat)
               * product (drop (S j) shape))) /\
    ((length strideVec < length shape)%nat ->
     computeStrideFromShape shape strideVec
     = computeStrideFromShape shape []).
Proof.
  intros Hrange.
  destruct (computeStrideFromShape_spec shape strideVec Hrange)
    as (strides & H1 & H2 & H3).
  exists strides. split; [exact H1|]. split; [exact H2|].
  split; [exact H3|].
  intros Hshort.
  assert (Hnone : strideVec !! (length shape - 1)%nat = None)
    by (apply lookup_ge_None; lia).
  destruct (computeStrideFromShape_spec shape []) as (strides0 & H4 & H5 & H6).
  { rewrite lookup_nil. simpl. intros j Hj.
    specialize (Hrange j Hj). by rewrite Hnone in Hrange. }
  rewrite H1, H4. f_equal. apply list_eq. intros j.
  destruct (decide (j < length shape)%nat) as [Hj|Hj].
  - by rewrite (H3 j Hj), (H6 j Hj), Hnone, lookup_nil.
  - rewrite !(proj2 (lookup_ge_None _ _)) by lia. reflexivity.
Qed.

Section LayerNormCalls.

Context {F : Type}.
Variable of_int : Z -> F.
Variable to_float : F -> F.

Implicit Types (rt : Runtime F) (eps : F).

(** X15: on an input without elements [diopiLayerNorm] only fills [out]
    with zero and reports success: no tensor is created, [saveMean] and
    [saveInvstd] are in no call, and the weight, the bias, the normalized
    shape (even one whose strides would overflow) and [eps] are not looked
    at. *)
Theorem diopiLayerNorm_of_an_empty_input_only_fills_out
    out saveMean saveInvstd input weight bias normalizedShape eps rt inputAt :
  tensors rt !! input = Some inputAt ->
  numel inputAt = 0 ->
  exists rt',
    diopiLayerNorm of_int to_float out saveMean saveInvstd input weight bias
      normalizedShape eps rt = Some (diopiSuccess, rt') /\
    tensors rt' = tensors rt /\
    next_handle rt' = next_handle rt /\
    runtime_calls rt'
    = runtime_calls rt
      ++ [RunOp "Fills" [out] [out] [("value", AttrFloat (of_int 0))]] /\
    forall saveMean' saveInvstd' weight' bias' normalizedShape' eps',
      diopiLayerNorm of_int to_float out saveMean' saveInvstd' input weight' bias'
        normalizedShape' eps' rt = Some (diopiSuccess, rt').
Proof.
  intros Hin Hnumel. unfold diopiLayerNorm. rewrite Hin. simpl.
  rewrite Hnumel. simpl. eexists. split; [reflexivity|].
  repeat split.
Qed.

Lemma createTensorIfNullptr_calls input shape stride dtype fill value rt :
  createTensorIfNullptr input shape stride dtype fill value rt
  = if input =? nullptr then
      (next_handle rt,
       mkRuntime
         (<[next_handle rt := mkTensorMeta (product shape) dtype shape]>
            (tensors rt))
         (next_handle rt + 1)
         (runtime_calls rt
          ++ RequireTensor shape stride dtype (next_handle rt)
             :: (if fill then [Fill (next_handle rt) value] else [])))
    else (input, rt).
Proof.
  unfold createTensorIfNullptr, diopiRequireTensor, log.
  destruct (input =? nullptr); [|reflexivity].
  destruct fill; simpl; [|reflexivity].
  by rewrite <- app_assoc.
Qed.

(** A tensor the runtime knows is still there, unchanged, after
    [createTensorIfNullptr], and the handles stay fresh. *)
Lemma createTensorIfNullptr_keeps input shape stride dtype fill value rt :
  handles_fresh rt ->
  handles_fresh (createTensorIfNullptr input shape stride dtype fill value rt).2
  /\ forall h meta,
       tensors rt !! h = Some meta ->
       tensors (createTensorIfNullptr input shape stride dtype fill value rt).2
         !! h = Some meta.
Proof.
  intros Hfresh. rewrite createTensorIfNullptr_calls.
  destruct (input =? nullptr); simpl; [|by split].
  split.
  - intros h Hh. simpl in *. rewrite lookup_insert_ne by lia.
    apply Hfresh. lia.
  - intros h meta Hmeta. rewrite lookup_insert_ne; [exact Hmeta|].
    intros <-. rewrite (Hfresh (next_handle rt)) in Hmeta by lia. done.
Qed.

(** X16: on an input with elements [diopiLayerNorm] normalises the trailing
    dimensions.  A null weight is replaced by a new tensor filled with 1 and
    a null bias by a new tensor filled with 0, both of the normalized shape,
    with its row-major strides and the dtype of the input, the weight's
    first; a weight or bias that is given is passed on and nothing is created
    for it.  One ["LayerNorm"] operator is run last, on the input, the
    weight and the bias, with the outputs [out], [saveMean] and
    [saveInvstd], both axes at rank(input) - rank(normalizedShape) and the
    epsilon narrowed from [double] to [float]; the result is
    [diopiSuccess]. *)
Theorem diopiLayerNorm_normalises_the_trailing_dimensions
    out saveMean saveInvstd input weight bias normalizedShape eps rt inputAt :
  tensors rt !! input = Some inputAt ->
  numel inputAt <> 0 ->
  handles_fresh rt ->
  (forall j, (S j < length normalizedShape)%nat ->
             in_int64 (product (drop (S j) normalizedShape)) = true) ->
  Z.of_nat (length (tensor_shape inputAt)) < 2 ^ 31 ->
  Z.of_nat (length normalizedShape) < 2 ^ 31 ->
  exists strides rt',
    computeStrideFromShape normalizedShape [] = Some strides /\
    diopiLayerNorm of_int to_float out saveMean saveInvstd input weight bias
      normalizedShape eps rt = Some (diopiSuccess, rt') /\
    runtime_calls rt'
    = runtime_calls rt
      ++ creation_calls weight normalizedShape strides (dtype inputAt)
           (of_int 1) (next_handle rt)
      ++ creation_calls bias normalizedShape strides (dtype inputAt)
           (of_int 0)
           (if weight =? nullptr then next_handle rt + 1 else next_handle rt)
      ++ [RunOp "LayerNorm"
            [input;
             if weight =? nullptr then next_handle rt else weight;
             if bias =? nullptr
             then (if weight =? nullptr then next_handle rt + 1
                   else next_handle rt)
             else bias]
            [out; saveMean; saveInvstd]
            [("begin_norm_axis",
              AttrInt (Z.of_nat (length (tensor_shape inputAt))
                       - Z.of_nat (length normalizedShape)));
             ("begin_params_axis",
              AttrInt (Z.of_nat (length (tensor_shape inputAt))
                       - Z.of_nat (length normalizedShape)));
             ("epsilon", AttrFloat (to_float eps))]].
Proof.
  intros Hin Hnumel Hfresh Hrange Hrank Hnorm.
  destruct (computeStrideFromShape_fresh normalizedShape Hrange)
    as (strides & Hstrides & _).
  exists strides.
  unfold diopiLayerNorm. rewrite Hin. simpl.
  destruct (numel inputAt =? 0) eqn:Hz; [lia|].
  rewrite Hstrides. simpl.
  pose proof (createTensorIfNullptr_keeps weight normalizedShape strides
                (dtype inputAt) true (of_int 1) rt Hfresh) as [Hfresh1 Hkeep1].
  pose proof (createTensorIfNullptr_calls weight normalizedShape strides
                (dtype inputAt) true (of_int 1) rt) as Hw.
  destruct (createTensorIfNullptr weight normalizedShape strides
              (dtype inputAt) true (of_int 1) rt) as [weightTemp rt1].
  simpl in Hfresh1, Hkeep1.
  pose proof (createTensorIfNullptr_keeps bias normalizedShape strides
                (dtype inputAt) true (of_int 0) rt1 Hfresh1)
    as [Hfresh2 Hkeep2].
  pose proof (createTensorIfNullptr_calls bias normalizedShape strides
                (dtype inputAt) true (of_int 0) rt1) as Hb.
  destruct (createTensorIfNullptr bias normalizedShape strides
              (dtype inputAt) true (of_int 0) rt1) as [biasTemp rt2].
  simpl in Hfresh2, Hkeep2.
  rewrite (Hkeep2 input inputAt (Hkeep1 input inputAt Hin)). simpl.
  assert (Haxis : to_int (Z.of_nat (length (tensor_shape inputAt))
                          - Z.of_nat (length normalizedShape))
                  = Z.of_nat (length (tensor_shape inputAt))
                    - Z.of_nat (length normalizedShape)).
  { unfold to_int. rewrite Z.mod_small; lia. }
  rewrite Haxis. eexists. split; [reflexivity|]. split; [reflexivity|].
  unfold creation_calls. simpl.
  destruct (weight =? nullptr), (bias =? nullptr);
    injection Hw as -> ->; injection Hb as -> ->; simpl;
    rewrite <- ?app_assoc; simpl; rewrite ?app_nil_r; reflexivity.
Qed.

End LayerNormCalls.

End LayerNormProperties.

(** * The properties on the sample states *)

Module Witnesses.

Import Examples.

Lemma setAllocator_higher_priority_replaces_witness :
  setAllocator "BF" XPU (getter 100 false) 1 start = Ok tt registered_once /\
  1 < 2 /\
  exists w2,
    setAllocator "BF" XPU (getter 200 false) 2 registered_once = Ok tt w2 /\
    registered w2 XPU "BF" = Some (make_tuple (getter 200 false) 2) /\
    resolve XPU "BF" w2 = Ok (Some (getter 200 false)) w2.
Proof.
  split; [reflexivity|]. split; [lia|].
  apply (setAllocator_higher_priority_replaces start registered_once "BF" XPU
           (getter 100 false) (getter 200 false) 1 2);
    [reflexivity|lia].
Defined.

(** C4 as stated fails: with "BF" registered for [XPU] at priority 1, a
    second registration of "BF" for [XPU] at priority 1 (or 0) does not
    complete; it throws. *)
Lemma setAllocator_lower_priority_is_not_a_noop :
  setAllocator "BF" XPU (getter 100 false) 1 start = Ok tt registered_once /\
  setAllocator "BF" XPU (getter 200 false) 1 registered_once
  = Throw (HigherPriorityRegistered XPU "BF" 1) registered_once /\
  setAllocator "BF" XPU (getter 200 false) 0 registered_once
  = Throw (HigherPriorityRegistered XPU "BF" 0) registered_once /\
  ~ exists w2,
      setAllocator "BF" XPU (getter 200 false) 0 registered_once = Ok tt w2.
Proof.
  split; [reflexivity|]. split; [reflexivity|]. split; [reflexivity|].
  intros [w2 H]. discriminate H.
Qed.

Lemma setAllocator_lower_priority_throws_keeps_entry_witness :
  setAllocator "BF" XPU (getter 100 false) 1 start = Ok tt registered_once /\
  0 <= 1 /\
  setAllocator "BF" XPU (getter 200 false) 0 registered_once
  = Throw (HigherPriorityRegistered XPU "BF" 0) registered_once /\
  registered registered_once XPU "BF" = Some (make_tuple (getter 100 false) 1) /\
  resolve XPU "BF" registered_once
  = Ok (Some (getter 100 false)) registered_once.
Proof.
  split; [reflexivity|]. split; [lia|].
  apply (setAllocator_lower_priority_throws_keeps_entry start registered_once
           "BF" XPU (getter 200 false) (getter 100 false) 0 1);
    [reflexivity|lia].
Defined.

Lemma setAllocator_lower_or_equal_priority_fails_witness :
  registered registered_once XPU "BF" = Some (make_tuple (getter 100 false) 1) /\
  1 <= 1 /\
  exists e,
    setAllocator "BF" XPU (getter 200 false) 1 registered_once
    = Throw e registered_once /\
    e = HigherPriorityRegistered XPU "BF" 1 /\
    what e = higher_priority_message.
Proof.
  split; [reflexivity|]. split; [lia|].
  apply (setAllocator_lower_or_equal_priority_fails registered_once "BF" XPU
           (getter 200 false) 1 (make_tuple (getter 100 false) 1));
    [reflexivity|simpl; lia].
Defined.

Lemma getAllocator_returns_memoized_instance_witness :
  getAllocator (mkDevice XPU 0) registered_once = Ok 100 device0_ready /\
  100 <> nullptr /\
  run later_program device0_ready = Some device0_later /\
  (exists count,
      memoized count
        (Z.to_nat (device_index_of (mkDevice XPU 0) count registered_once))
        100 device0_ready) /\
  getAllocator (mkDevice XPU 0) device0_later = Ok 100 device0_later.
Proof.
  split; [vm_compute; reflexivity|]. split; [done|].
  split; [vm_compute; reflexivity|].
  apply (getAllocator_returns_memoized_instance (mkDevice XPU 0)
           registered_once 100 device0_ready later_program device0_later).
  - vm_compute; reflexivity.
  - done.
  - vm_compute; reflexivity.
  - intros _ H. discriminate H.
Defined.

Lemma createAllocator_without_entry_fails_witness :
  registered registered_once CPU
    (selected_algorithm CPU registered_once) = None /\
  exists w',
    createAllocator (mkDevice CPU (-1)) registered_once
    = Throw (NoAllocatorFound CPU "BF") w' /\
    calls w' = [RegistryCount CPU "BF"] /\
    used_allocator w' = [] /\
    heap w' = ∅ /\
    allocator_lookup_table w' = None.
Proof.
  split; [reflexivity|].
  destruct (createAllocator_without_entry_fails (mkDevice CPU (-1))
              registered_once
              (default ∅ (gDIPURegisteredAllocatorPtr registered_once))
              eq_refl eq_refl)
    as (w' & Hthrow & _ & Hcalls & Hused & Hheap & Htable & _).
  exists w'. repeat split; assumption.
Defined.



Lemma used_allocator_holds_accelerator_allocators_only_witness :
  used_created start /\
  run three_devices_program start = Some three_devices /\
  (forall p, p ∈ used_allocator three_devices ->
             Created XPU p ∈ calls three_devices) /\
  (forall w'',
      final_state (getAllocator (mkDevice CPU (-1)) three_devices) = Some w'' ->
      used_allocator w'' = used_allocator three_devices).
Proof.
  assert (Hstart : used_created start).
  { intros p Hp. by apply elem_of_nil in Hp. }
  assert (Hrun : run three_devices_program start = Some three_devices)
    by (vm_compute; reflexivity).
  split; [exact Hstart|]. split; [exact Hrun|].
  destruct (used_allocator_holds_accelerator_allocators_only start
              three_devices_program three_devices Hstart Hrun)
    as (Hmembers & _ & Hhost & _).
  split; [exact Hmembers|].
  intros w''. apply Hhost. discriminate.
Defined.

Lemma recordStream_null_context_is_noop_witness :
  get_context (mkDataPtr 4096 nullptr) = nullptr /\
  recordStream (mkDataPtr 4096 nullptr) 5 start = Ok tt start /\
  recordStream_tensor (mkTensor (mkDataPtr 4096 nullptr)) 5 start
  = Ok tt start.
Proof.
  split; [reflexivity|].
  destruct (recordStream_null_context_is_noop (mkDataPtr 4096 nullptr) 5 start
              eq_refl) as [Hptr Htensor].
  split; [exact Hptr|]. by apply Htensor.
Defined.

(** Off the default stream, and on it: the allocator of device 0 is created
    at address 100, its [allocate] is called with the size 64, returns the
    data pointer, and has counted the 64 bytes in its data. *)
Lemma proxy_allocate_orders_streams_then_delegates_witness :
  rt_current_stream on_stream_5 <> rt_default_stream on_stream_5 /\
  (exists w',
      allocate (mkProxy XPU) 64 on_stream_5
      = Ok (mkDataPtr 4096 nullptr) w' /\
      calls w'
      = [Cout "c10::DataPtr allocate"; EventRecord 0; EventWait 5;
         Cout "currentStream wait "; RegistryCount XPU "BF";
         CallGetter XPU "BF" 0; Created XPU 100; Allocate 100 64] /\
      heap w' !! 100 = Some (with_mem 64%nat (allocator_object counting))) /\
  rt_current_stream registered_once = rt_default_stream registered_once /\
  (exists w',
      allocate (mkProxy XPU) 64 registered_once
      = Ok (mkDataPtr 4096 nullptr) w' /\
      calls w'
      = [Cout "c10::DataPtr allocate"; RegistryCount XPU "BF";
         CallGetter XPU "BF" 0; Created XPU 100; Allocate 100 64] /\
      heap w' !! 100 = Some (with_mem 64%nat (allocator_object counting))).
Proof.
  destruct (proxy_allocate_orders_streams_then_delegates (mkProxy XPU) 64
              on_stream_5) as (Hdiffer & _ & _ & _ & Hdelegate5 & _).
  destruct (proxy_allocate_orders_streams_then_delegates (mkProxy XPU) 64
              registered_once) as (_ & Hsame & _ & _ & Hdelegate & _).
  split; [discriminate|]. split; [|split; [reflexivity|]].
  - rewrite Hdiffer by discriminate. simpl.
    destruct (Hdelegate5
                (with_calls
                   (calls on_stream_5
                    ++ [Cout "c10::DataPtr allocate"; EventRecord 0;
                        EventWait 5; Cout "currentStream wait "])
                   on_stream_5)
                100
                (after (getAllocator (mkDevice XPU (-1))
                          (with_calls
                             (calls on_stream_5
                              ++ [Cout "c10::DataPtr allocate"; EventRecord 0;
                                  EventWait 5; Cout "currentStream wait "])
                             on_stream_5)))
                (allocator_object counting))
      as [Hok _]; [vm_compute; reflexivity|done|vm_compute; reflexivity|].
    eexists. split; [apply (Hok (mkDataPtr 4096 nullptr) 64%nat eq_refl)|].
    split; vm_compute; reflexivity.
  - rewrite Hsame by reflexivity. simpl.
    destruct (Hdelegate
                (with_calls
                   (calls registered_once ++ [Cout "c10::DataPtr allocate"])
                   registered_once)
                100
                (after (getAllocator (mkDevice XPU (-1))
                          (with_calls
                             (calls registered_once
                              ++ [Cout "c10::DataPtr allocate"])
                             registered_once)))
                (allocator_object counting))
      as [Hok _]; [vm_compute; reflexivity|done|vm_compute; reflexivity|].
    eexists. split; [apply (Hok (mkDataPtr 4096 nullptr) 64%nat eq_refl)|].
    split; vm_compute; reflexivity.
Defined.

(** The calls of [allocate] on a stream that is not the default one, and
    on the default stream. *)
Example allocate_off_default_stream_calls :
  calls (after (allocate (mkProxy XPU) 64 on_stream_5))
  = [Cout "c10::DataPtr allocate"; EventRecord 0; EventWait 5;
     Cout "currentStream wait "; RegistryCount XPU "BF";
     CallGetter XPU "BF" 0; Created XPU 100; Allocate 100 64].
Proof. vm_compute; reflexivity. Qed.

Example allocate_on_default_stream_calls :
  calls (after (allocate (mkProxy XPU) 64 registered_once))
  = [Cout "c10::DataPtr allocate"; RegistryCount XPU "BF";
     CallGetter XPU "BF" 0; Created XPU 100; Allocate 100 64].
Proof. vm_compute; reflexivity. Qed.

(** The lookup table after the sample program: devices 0 and 1 have their
    allocators; the host slot is empty, no algorithm being registered for
    [CPU]. *)
Example lookup_table_after_program :
  allocator_lookup_table device0_later = Some [100; 101; 0; 0] /\
  used_allocator device0_later = [100; 101] /\
  getAllocator (mkDevice CPU (-1)) device0_later
  = Throw (NoAllocatorFound CPU "BF")
      (after (getAllocator (mkDevice CPU (-1)) device0_later)).
Proof. repeat split; vm_compute; reflexivity. Qed.

(** A device without an index resolves to the current device, here 2. *)
Example unindexed_device_uses_current_device :
  getAllocator (mkDevice XPU (-1)) device0_later
  = Ok 102 (after (getAllocator (mkDevice XPU (-1)) device0_later)) /\
  allocator_lookup_table
    (after (getAllocator (mkDevice XPU (-1)) device0_later))
  = Some [100; 101; 102; 0].
Proof. split; vm_compute; reflexivity. Qed.

(** Before any registration the registry pointer is null, and
    [createAllocator] dereferences it. *)
Example getAllocator_before_any_registration :
  getAllocator (mkDevice XPU 0) start = Undefined.
Proof. vm_compute; reflexivity. Qed.

(** C7: before any registration the claim fails on the code.  At process
    start nothing is registered, so the algorithm selected for a device of
    class [XPU] has no entry; [createAllocator] does not raise the "No
    allocator found" error there: it dereferences the registry pointer,
    which is still null, without the check [setAllocator] makes before its
    own dereference, and the behaviour is undefined.  The same holds for
    [getAllocator] and for the proxy's [allocate], which reach
    [createAllocator] on an empty slot.  [setAllocator] in the same state
    creates the registry and returns. *)
Theorem createAllocator_before_any_registration_dereferences_null :
  gDIPURegisteredAllocatorPtr start = None /\
  registered start XPU (selected_algorithm XPU start) = None /\
  createAllocator (mkDevice XPU 0) start = Undefined /\
  (forall e w',
      createAllocator (mkDevice XPU 0) start <> Throw e w') /\
  getAllocator (mkDevice XPU 0) start = Undefined /\
  allocate (mkProxy XPU) 64 start = Undefined /\
  setAllocator "BF" XPU (getter 100 false) 1 start = Ok tt registered_once /\
  gDIPURegisteredAllocatorPtr registered_once <> None.
Proof.
  split; [reflexivity|]. split; [reflexivity|].
  split; [apply createAllocator_null_registry; reflexivity|].
  split; [intros e w'; rewrite createAllocator_null_registry by reflexivity;
          discriminate|].
  split; [vm_compute; reflexivity|]. split; [vm_compute; reflexivity|].
  split; [reflexivity|]. vm_compute. discriminate.
Qed.

Import CachingAllocatorModel.

(** A block allocated and recorded on stream 7; one piece of work enqueued
    on stream 7 while the block is live; the block freed; stream 7 then
    retiring that work, after which the block is handed out again. *)
Lemma freed_block_reused_only_after_recorded_streams_retired_witness :
  (exists st',
      allocate first_fit 10
        (steps first_fit
           [DoAllocate 10; DoRecordStream 0 7; DoEnqueue 7; DoFree 0;
            DoRetire 7] initial) = (0, st')) /\
  enqueued_on
    (steps first_fit [DoAllocate 10; DoRecordStream 0 7; DoEnqueue 7] initial)
    7 = 1%nat /\
  (enqueued_on
     (steps first_fit [DoAllocate 10; DoRecordStream 0 7; DoEnqueue 7]
        initial) 7
   <= retired_by
        (steps first_fit
           [DoAllocate 10; DoRecordStream 0 7; DoEnqueue 7; DoFree 0;
            DoRetire 7] initial) 7)%nat.
Proof.
  split; [eexists; vm_compute; reflexivity|]. split; [reflexivity|].
  apply (CachingAllocatorProperties.freed_block_reused_only_after_recorded_streams_retired
           first_fit [DoAllocate 10; DoRecordStream 0 7] [DoEnqueue 7]
           [DoRetire 7] 0 7 10
           (steps first_fit [DoAllocate 10; DoRecordStream 0 7] initial)
           (steps first_fit [DoAllocate 10; DoRecordStream 0 7; DoEnqueue 7]
              initial)
           (steps first_fit
              [DoAllocate 10; DoRecordStream 0 7; DoEnqueue 7; DoFree 0;
               DoRetire 7] initial)
           (allocate first_fit 10
              (steps first_fit
                 [DoAllocate 10; DoRecordStream 0 7; DoEnqueue 7; DoFree 0;
                  DoRetire 7] initial)).2).
  - reflexivity.
  - eexists. split; [vm_compute; reflexivity|]. split; [reflexivity|].
    simpl. set_solver.
  - repeat constructor; discriminate.
  - reflexivity.
  - reflexivity.
  - vm_compute; reflexivity.
Defined.

(** With no stream recorded, a freed block is handed out again at once. *)
Example unrecorded_block_reused :
  (allocate first_fit 10 (steps first_fit [DoAllocate 10; DoFree 0] initial)).1
  = 0.
Proof. vm_compute; reflexivity. Qed.

(** While stream 7 has not retired the work enqueued on it before the
    block was freed, the block is not handed out: new memory is reserved.
    That holds for work enqueued before the stream was recorded and for work
    enqueued after. *)
Example deferred_block_not_reused :
  (allocate first_fit 10
     (steps first_fit [DoAllocate 10; DoEnqueue 7; DoRecordStream 0 7; DoFree 0]
        initial)).1 = 1 /\
  (allocate first_fit 10
     (steps first_fit [DoAllocate 10; DoRecordStream 0 7; DoEnqueue 7; DoFree 0]
        initial)).1 = 1.
Proof. split; vm_compute; reflexivity. Qed.

(** Work enqueued on the recorded stream after the block was freed is not
    waited for. *)
Example later_work_is_not_waited_for :
  (allocate first_fit 10
     (steps first_fit
        [DoAllocate 10; DoRecordStream 0 7; DoEnqueue 7; DoFree 0;
         DoEnqueue 7; DoRetire 7] initial)).1 = 0.
Proof. vm_compute; reflexivity. Qed.

End Witnesses.

(** * The further properties on the sample states *)

Module FurtherWitnesses.

Import Examples.

Lemma setAllocator_new_name_never_conflicts_witness :
  registered registered_once XPU "BS" = None /\
  exists w',
    setAllocator "BS" XPU (getter 200 false) 0 registered_once = Ok tt w' /\
    registered w' XPU "BS" = Some (make_tuple (getter 200 false) 0) /\
    w' = with_registry (gDIPURegisteredAllocatorPtr w') registered_once /\
    forall device_type' name',
      (device_type', name') <> (XPU, "BS") ->
      registered w' device_type' name'
      = registered registered_once device_type' name'.
Proof.
  split; [reflexivity|].
  apply (setAllocator_new_name_never_conflicts registered_once "BS" XPU
           (getter 200 false) 0).
  reflexivity.
Defined.

Lemma registry_entries_persist_witness :
  registered device0_ready XPU "BF" = Some (make_tuple (getter 100 false) 1) /\
  run (later_program ++ [SetAllocator "BF" XPU (getter 200 false) 2])
    device0_ready
  = Some (after (setAllocator "BF" XPU (getter 200 false) 2 device0_later)) /\
  exists entry',
    registered
      (after (setAllocator "BF" XPU (getter 200 false) 2 device0_later))
      XPU "BF" = Some entry' /\
    1 <= get_1 entry'.
Proof.
  split; [vm_compute; reflexivity|]. split; [vm_compute; reflexivity|].
  apply (registry_entries_persist device0_ready
           (later_program ++ [SetAllocator "BF" XPU (getter 200 false) 2])
           (after (setAllocator "BF" XPU (getter 200 false) 2 device0_later))
           XPU "BF" (make_tuple (getter 100 false) 1));
    vm_compute; reflexivity.
Defined.

Lemma used_allocator_stays_a_set_witness :
  used_allocator device0_ready = [100] /\
  run later_program device0_ready = Some device0_later /\
  used_allocator device0_later = [100; 101] /\
  strictly_increasing (used_allocator device0_later) /\
  NoDup (used_allocator device0_later).
Proof.
  split; [vm_compute; reflexivity|]. split; [vm_compute; reflexivity|].
  split; [vm_compute; reflexivity|].
  apply (used_allocator_stays_a_set device0_ready later_program
           device0_later).
  - vm_compute. split; [constructor|exact I].
  - vm_compute; reflexivity.
Defined.


Lemma getAllocator_creates_on_first_use_witness :
  exists w',
    getAllocator (mkDevice XPU 1) device0_ready = Ok 101 w' /\
    allocator_lookup_table w' = Some [100; 101; 0; 0] /\
    used_allocator w' = [100; 101] /\
    calls w'
    = calls device0_ready
      ++ [RegistryCount XPU "BF"; CallGetter XPU "BF" 1; Created XPU 101].
Proof.
  destruct (getAllocator_creates_on_first_use (mkDevice XPU 1) device0_ready
              3 [100; 0; 0; 0] (make_tuple (getter 100 false) 1) 101
              (<[101 := allocator_object counting]> (heap device0_ready)))
    as (w' & Hget & Htable & _ & Hcalls & Hused & _);
    try (vm_compute; reflexivity).
  { vm_compute. discriminate. }
  exists w'. split; [exact Hget|]. split; [exact Htable|].
  split; [exact Hused|exact Hcalls].
Defined.

Lemma failed_creation_is_retried_witness :
  exists w1 w2 w3,
    getAllocator (mkDevice CPU (-1)) device0_ready
    = Throw (NoAllocatorFound CPU "BF") w1 /\
    allocator_lookup_table w1 = Some [100; 0; 0; 0] /\
    setAllocator "BF" CPU host_getter 0 w1 = Ok tt w2 /\
    getAllocator (mkDevice CPU (-1)) w2 = Ok 900 w3 /\
    allocator_lookup_table w3 = Some [100; 0; 0; 900].
Proof.
  apply (failed_creation_is_retried (mkDevice CPU (-1)) device0_ready
           (default ∅ (gDIPURegisteredAllocatorPtr device0_ready))
           3 [100; 0; 0; 0] host_getter 0 900
           (<[900 := plain_object]> (heap device0_ready)));
    try (vm_compute; reflexivity).
  vm_compute. discriminate.
Defined.

Lemma getAllocator_of_type_follows_the_current_device_witness :
  getAllocator_of_type XPU (set_device 0 device0_later)
  = Ok 100 (set_device 0 device0_later) /\
  getAllocator_of_type XPU (set_device 1 device0_later)
  = Ok 101 (set_device 1 device0_later).
Proof.
  assert (H100 : 100 <> nullptr) by done.
  assert (H101 : 101 <> nullptr) by done.
  split.
  - apply (proj1 (getAllocator_of_type_follows_the_current_device XPU
                    device0_later 3 0 100 H100)); [done|done|].
    split; [vm_compute; reflexivity|].
    eexists. split; vm_compute; reflexivity.
  - apply (proj1 (getAllocator_of_type_follows_the_current_device XPU
                    device0_later 3 1 101 H101)); [done|done|].
    split; [vm_compute; reflexivity|].
    eexists. split; vm_compute; reflexivity.
Defined.

Lemma memory_statistics_read_the_created_allocator_witness :
  memoryReserved (mkDevice CPU (-1)) host_ready = Ok 0 host_ready /\
  memoryAllocated (mkDevice CPU (-1)) host_ready = Ok 0 host_ready /\
  maxMemoryReserved (mkDevice CPU (-1)) host_ready = Ok 0 host_ready /\
  maxMemoryAllocated (mkDevice CPU (-1)) host_ready = Ok 0 host_ready.
Proof.
  apply (memory_statistics_read_the_created_allocator (mkDevice CPU (-1))
           host_ready 3 900 plain_object).
  - done.
  - vm_compute. discriminate.
  - split; [vm_compute; reflexivity|].
    eexists. split; vm_compute; reflexivity.
  - vm_compute; reflexivity.
  - reflexivity.
Defined.

Lemma raw_deleter_never_orders_streams_witness :
  exists rest,
    calls (after (raw_deleter (mkProxy XPU) on_stream_5))
    = calls on_stream_5 ++ rest /\
    Forall (fun c => is_sync c = false) rest.
Proof.
  apply (proj1 (raw_deleter_never_orders_streams (mkProxy XPU) on_stream_5)).
  vm_compute; reflexivity.
Defined.

Lemma recordStream_adds_the_stream_once_witness :
  exists w1,
    recordStream (mkDataPtr 4096 7) 5 with_blocks = Ok tt w1 /\
    contexts w1 !! 7 = Some ({[5]} ∪ {[1]}) /\
    (forall ctx, ctx <> 7 -> contexts w1 !! ctx = contexts with_blocks !! ctx) /\
    w1 = with_contexts (contexts w1) with_blocks /\
    recordStream (mkDataPtr 4096 7) 5 w1 = Ok tt w1.
Proof.
  apply (recordStream_adds_the_stream_once (mkDataPtr 4096 7) 5 with_blocks
           {[1]}).
  - done.
  - vm_compute; reflexivity.
Defined.

Lemma recordStream_calls_commute_witness :
  exists w',
    (recordStream (mkDataPtr 4096 7) 5;; recordStream (mkDataPtr 8192 9) 6)
      with_blocks = Ok tt w' /\
    (recordStream (mkDataPtr 8192 9) 6;; recordStream (mkDataPtr 4096 7) 5)
      with_blocks = Ok tt w'.
Proof.
  apply (recordStream_calls_commute (mkDataPtr 4096 7) (mkDataPtr 8192 9)
           5 6 with_blocks {[1]} ∅);
    [done|done|vm_compute; reflexivity|vm_compute; reflexivity].
Defined.

Lemma sweepable_device0_later method p :
  (method = empty_cache \/ method = release_all_memory) ->
  p ∈ used_allocator device0_later -> sweepable method device0_later p.
Proof.
  intros Hmethod Hp.
  assert (Hused : used_allocator device0_later = [100; 101])
    by (vm_compute; reflexivity).
  rewrite Hused in Hp.
  assert (Hobj : heap device0_later !! p = Some (allocator_object counting)).
  { apply elem_of_cons in Hp as [->|Hp]; [vm_compute; reflexivity|].
    apply elem_of_cons in Hp as [->|Hp]; [vm_compute; reflexivity|].
    by apply elem_of_nil in Hp. }
  right. exists (allocator_object counting). split; [exact Hobj|].
  intros c [= <-]. exists 0%nat.
  by destruct Hmethod as [->| ->].
Qed.

Lemma sweeps_call_every_cache_allocator_once_witness :
  used_allocator device0_later = [100; 101] /\
  exists w',
    emptyCachedMem device0_later = Ok tt w' /\
    calls w'
    = calls device0_later
      ++ (EmptyCache <$> filter (fun p => is_Some (cache_part device0_later p))
                           (used_allocator device0_later)).
Proof.
  split; [vm_compute; reflexivity|].
  destruct (proj1 (sweeps_call_every_cache_allocator_once device0_later
                     ltac:(vm_compute; repeat constructor;
                           rewrite ?elem_of_cons, ?elem_of_nil; lia))
              (fun p => sweepable_device0_later empty_cache p (or_introl eq_refl)))
    as (w' & Hsweep & Hcalls & _).
  exists w'. split; [exact Hsweep|exact Hcalls].
Defined.

Lemma host_slot_is_shared_with_the_device_of_index_count_witness :
  getAllocator (mkDevice CPU (-1)) host_ready = Ok 900 host_ready /\
  getAllocator (mkDevice XPU 3) host_ready = Ok 900 host_ready.
Proof.
  apply (host_slot_is_shared_with_the_device_of_index_count XPU (-1)
           host_ready 3 900); [done|done|].
  split; [vm_compute; reflexivity|].
  eexists. split; vm_compute; reflexivity.
Defined.

Lemma getAllocator_does_not_check_the_index_witness :
  getAllocator (mkDevice XPU 7) device0_ready = Undefined /\
  is_cpu (mkDevice XPU 7) = false /\
  device_index_of (mkDevice XPU 7) 3 device0_ready = 7.
Proof.
  apply (getAllocator_does_not_check_the_index (mkDevice XPU 7) device0_ready
           3 [100; 0; 0; 0]);
    [vm_compute; reflexivity|vm_compute; reflexivity|lia|reflexivity|].
  right. vm_compute. reflexivity.
Defined.

Import LayerNorm LayerNormProperties.

Lemma computeStrideFromShape_gives_row_major_strides_witness :
  computeStrideFromShape [2; 3; 4] [] = Some [12; 4; 1] /\
  length [12; 4; 1] = length [2; 3; 4] /\
  (forall j, (j < length [2; 3; 4])%nat ->
             [12; 4; 1] !! j = Some (product (drop (S j) [2; 3; 4]))) /\
  (forall j extent next,
      [2; 3; 4] !! S j = Some extent -> [12; 4; 1] !! S j = Some next ->
      [12; 4; 1] !! j = Some (next * extent)).
Proof.
  split; [reflexivity|].
  apply (proj2 (computeStrideFromShape_gives_row_major_strides [2; 3; 4])
           [12; 4; 1]).
  reflexivity.
Defined.

Lemma computeStrideFromShape_keeps_a_stale_last_stride_witness :
  exists strides,
    computeStrideFromShape [2; 3; 4] [9; 9; 5; 9] = Some strides /\
    length strides = 3%nat /\
    (forall j, (j < 3)%nat ->
       strides !! j = Some (5 * product (drop (S j) [2; 3; 4]))) /\
    ((4 < 3)%nat ->
     computeStrideFromShape [2; 3; 4] [9; 9; 5; 9]
     = computeStrideFromShape [2; 3; 4] []).
Proof.
  apply (computeStrideFromShape_keeps_a_stale_last_stride [2; 3; 4]
           [9; 9; 5; 9]).
  intros [|[|j]] Hj; [reflexivity|reflexivity|simpl in Hj; lia].
Defined.

Lemma diopiLayerNorm_of_an_empty_input_only_fills_out_witness :
  exists rt',
    diopiLayerNorm id round_to_float 20 21 22 2 nullptr nullptr [4] 0 runtime
    = Some (diopiSuccess, rt') /\
    tensors rt' = tensors runtime /\
    next_handle rt' = next_handle runtime /\
    runtime_calls rt'
    = runtime_calls runtime
      ++ [RunOp "Fills" [20] [20] [("value", AttrFloat 0)]] /\
    forall saveMean' saveInvstd' weight' bias' normalizedShape' eps',
      diopiLayerNorm id round_to_float 20 saveMean' saveInvstd' 2 weight' bias'
        normalizedShape' eps' runtime = Some (diopiSuccess, rt').
Proof.
  apply (diopiLayerNorm_of_an_empty_input_only_fills_out id round_to_float
           20 21 22 2 nullptr nullptr [4] 0 runtime (mkTensorMeta 0 9 [0; 4]));
    reflexivity.
Defined.

(** The epsilon 16777217 is a [double] that is no [float]: the operator
    gets 16777216. *)
Lemma diopiLayerNorm_normalises_the_trailing_dimensions_witness :
  exists rt',
    diopiLayerNorm id round_to_float 20 21 22 1 nullptr 5 [3; 4] 16777217
      runtime
    = Some (diopiSuccess, rt') /\
    runtime_calls rt'
    = [RequireTensor [3; 4] [4; 1] 9 10; Fill 10 1;
       RunOp "LayerNorm" [1; 10; 5] [20; 21; 22]
         [("begin_norm_axis", AttrInt 1); ("begin_params_axis", AttrInt 1);
          ("epsilon", AttrFloat 16777216)]].
Proof.
  destruct (diopiLayerNorm_normalises_the_trailing_dimensions id
              round_to_float 20 21 22 1 nullptr 5 [3; 4] 16777217 runtime
              (mkTensorMeta 24 9 [2; 3; 4]))
    as (strides & rt' & Hstrides & Hrun & Hcalls).
  - reflexivity.
  - done.
  - intros h Hh. unfold runtime in *. simpl in *.
    rewrite !lookup_insert_ne by lia. apply lookup_empty.
  - intros [|j] Hj; [reflexivity|simpl in Hj; lia].
  - simpl. lia.
  - simpl. lia.
  - exists rt'. split; [exact Hrun|].
    injection Hstrides as <-. exact Hcalls.
Defined.

End FurtherWitnesses.
